(** * Tomorrow Planner: the store, the creation dialogue and the callback
      controller of [bot.py] and [db.py], embedded and verified.

    Layout: the Python string operations the program relies on ([PyStr]),
    the SQLite-backed store of [db.py] ([Db]), the handlers of [bot.py]
    ([Bot]), then the theorems. *)

From Stdlib Require Import ZArith NArith String Ascii List Lia Bool.
From Stdlib Require Import DecimalZ DecimalPos DecimalFacts Sorted.
From stdpp Require Import gmap list.

Local Open Scope N_scope.

(** ** Python [str]: sequences of Unicode code points *)

(** A Python [str] is a sequence of code points; [len], indexing, [strip]
    and [split] all count code points, so the model is [list N] and not a
    byte string. *)
Abbreviation char := N (only parsing).
Abbreviation str := (list N) (only parsing).

Module PyStr.

(** An ASCII literal of the source, as code points. *)
Definition py (s : string) : str :=
  List.map N_of_ascii (list_ascii_of_string s).

(** [str.isspace] on one code point: the interpreter's whitespace table
    (U+0009..000D, U+001C..0020, U+0085, U+00A0, U+1680, U+2000..200A,
    U+2028, U+2029, U+202F, U+205F, U+3000). *)
Definition isspace (c : char) : bool :=
  ((9 <=? c) && (c <=? 13)) || ((28 <=? c) && (c <=? 32))
  || (c =? 133) || (c =? 160) || (c =? 5760)
  || ((8192 <=? c) && (c <=? 8202))
  || (c =? 8232) || (c =? 8233) || (c =? 8239) || (c =? 8287)
  || (c =? 12288).

Fixpoint lstrip (s : str) : str :=
  match s with
  | c :: r => if isspace c then lstrip r else s
  | [] => []
  end.

Definition rstrip (s : str) : str := rev (lstrip (rev s)).

(** [s.strip()] *)
Definition strip (s : str) : str := rstrip (lstrip s).

(** [s.split()]: split on runs of whitespace, no empty pieces.  [cur] is
    the piece being read, reversed. *)
Fixpoint split_ws_from (cur : str) (s : str) : list str :=
  match s with
  | [] => match cur with [] => [] | _ => [rev cur] end
  | c :: r =>
      if isspace c
      then match cur with
           | [] => split_ws_from [] r
           | _ => rev cur :: split_ws_from [] r
           end
      else split_ws_from (c :: cur) r
  end.

Definition split_ws (s : str) : list str := split_ws_from [] s.

(** [s.split(sep)] for a one-character separator. *)
Fixpoint split (sep : char) (s : str) : list str :=
  match s with
  | [] => [[]]
  | c :: r =>
      if c =? sep then [] :: split sep r
      else match split sep r with
           | x :: xs => (c :: x) :: xs
           | [] => [[c]]
           end
  end.

(** [s.split(sep, maxsplit=1)] for a one-character separator. *)
Fixpoint split1 (sep : char) (s : str) : list str :=
  match s with
  | [] => [[]]
  | c :: r =>
      if c =? sep then [[]; r]
      else match split1 sep r with
           | x :: xs => (c :: x) :: xs
           | [] => [[c]]
           end
  end.

(** [s.startswith(p)] *)
Fixpoint startswith (p s : str) : bool :=
  match p, s with
  | [], _ => true
  | a :: p', b :: s' => (a =? b) && startswith p' s'
  | _ :: _, [] => false
  end.

(** [s.replace(c, r)] for a one-character pattern [c]. *)
Definition replace (c : char) (r : str) (s : str) : str :=
  List.flat_map (fun x => if x =? c then r else [x]) s.

(** [sep.join(lines)] *)
Fixpoint join (sep : str) (lines : list str) : str :=
  match lines with
  | [] => []
  | [l] => l
  | l :: rest => l ++ sep ++ join sep rest
  end.

(** *** What the interpreter's Unicode database and float formatting
    supply *)

(** The tables behind [isdigit], [int], [lower] and [title] outside ASCII,
    and the [%.6f] rendering of a float, belong to the interpreter and not
    to the repository; the program is modelled over any such tables. *)
Class Interpreter := {
  (** [Py_UNICODE_ISDIGIT] on code points from 128 up *)
  unicode_isdigit : char -> bool;
  (** [Py_UNICODE_TODECIMAL] on code points from 127 up *)
  unicode_decimal : char -> option N;
  (** [str.lower] on a string that is not pure ASCII *)
  unicode_lower : str -> str;
  (** [str.title] *)
  str_title : str -> str;
  (** the floats of a location pin and their [:.6f] rendering *)
  float : Type;
  format_6f : float -> str;
}.

Definition ascii_isdigit (c : char) : bool := (48 <=? c) && (c <=? 57).

Section WithInterpreter.
Context `{Interpreter}.

Definition isdigit_char (c : char) : bool :=
  if c <? 128 then ascii_isdigit c else unicode_isdigit c.

(** [s.isdigit()]: non-empty and every character a digit. *)
Definition isdigit (s : str) : bool :=
  match s with
  | [] => false
  | _ => forallb isdigit_char s
  end.

Definition ascii_lower (c : char) : char :=
  if (65 <=? c) && (c <=? 90) then c + 32 else c.

(** [s.lower()]: the interpreter lowers a pure-ASCII string character by
    character and hands any other string to the Unicode algorithm. *)
Definition lower (s : str) : str :=
  if forallb (fun c => c <? 128) s then List.map ascii_lower s
  else unicode_lower s.

(** *** [int(s)] *)

(** First pass of [int] on a [str]: ASCII is kept, other whitespace becomes
    a space, other decimal digits become ASCII digits, and the text is cut
    at the first character that is none of these (marked [?]). *)
Fixpoint to_ascii_decimal (s : str) : str :=
  match s with
  | [] => []
  | c :: r =>
      if c <? 127 then c :: to_ascii_decimal r
      else if isspace c then 32 :: to_ascii_decimal r
      else match unicode_decimal c with
           | Some d => (48 + d) :: to_ascii_decimal r
           | None => [63]
           end
  end.

End WithInterpreter.

(** Whitespace of the C locale, skipped around the literal. *)
Definition c_isspace (c : char) : bool :=
  (c =? 32) || ((9 <=? c) && (c <=? 13)).

Fixpoint skip_c_space (s : str) : str :=
  match s with
  | c :: r => if c_isspace c then skip_c_space r else s
  | [] => []
  end.

Definition is_digit_or_underscore (c : char) : bool :=
  ascii_isdigit c || (c =? 95).

(** The run of digits and underscores at the head of [s], and the rest. *)
Fixpoint scan_digits (s : str) : str * str :=
  match s with
  | c :: r =>
      if is_digit_or_underscore c
      then let '(body, rest) := scan_digits r in (c :: body, rest)
      else ([], s)
  | [] => ([], [])
  end.

(** Underscores only singly and only between digits. *)
Fixpoint underscores_ok (prev_underscore : bool) (body : str) : bool :=
  match body with
  | [] => negb prev_underscore
  | c :: r =>
      if c =? 95 then negb prev_underscore && underscores_ok true r
      else underscores_ok false r
  end.

(** Value of a run of digits, underscores skipped. *)
Fixpoint digits_value (acc : Z) (body : str) : Z :=
  match body with
  | [] => acc
  | c :: r =>
      if c =? 95 then digits_value acc r
      else digits_value (10 * acc + Z.of_N (c - 48)) r
  end.

(** The digits of a literal and what may follow them: at least one digit,
    no leading underscore, then only blanks.  [None] is [ValueError]. *)
Definition long_digits (s : str) : option Z :=
  let '(body, rest) := scan_digits s in
  if match body with [] => true | c :: _ => c =? 95 end then None
  else if underscores_ok false body
  then match skip_c_space rest with
       | [] => Some (digits_value 0 body)
       | _ => None
       end
  else None.

(** The base-10 literal parser: optional blanks, optional sign, digits with
    single underscores between them, optional blanks, end of text. *)
Definition long_from_string (s : str) : option Z :=
  match skip_c_space s with
  | [] => None
  | c :: r =>
      if c =? 43 then long_digits r
      else if c =? 45 then Z.opp <$> long_digits r
      else long_digits (c :: r)
  end.

(** [int(s)] on a [str]. *)
Definition int `{Interpreter} (s : str) : option Z :=
  long_from_string (to_ascii_decimal s).

(** *** [str(n)] for an [int], as in an f-string *)

Fixpoint uint_chars (d : Decimal.uint) : str :=
  match d with
  | Decimal.Nil => []
  | Decimal.D0 r => 48 :: uint_chars r
  | Decimal.D1 r => 49 :: uint_chars r
  | Decimal.D2 r => 50 :: uint_chars r
  | Decimal.D3 r => 51 :: uint_chars r
  | Decimal.D4 r => 52 :: uint_chars r
  | Decimal.D5 r => 53 :: uint_chars r
  | Decimal.D6 r => 54 :: uint_chars r
  | Decimal.D7 r => 55 :: uint_chars r
  | Decimal.D8 r => 56 :: uint_chars r
  | Decimal.D9 r => 57 :: uint_chars r
  end.

Definition str_of_int (n : Z) : str :=
  match Z.to_int n with
  | Decimal.Pos d => uint_chars d
  | Decimal.Neg d => 45 :: uint_chars d
  end.

(** An interpreter whose tables hold nothing outside ASCII and whose floats
    are whole numbers, to run the model on examples. *)
Definition ascii_only : Interpreter :=
  {| unicode_isdigit := fun _ => false;
     unicode_decimal := fun _ => None;
     unicode_lower := fun s => s;
     str_title := fun s => s;
     float := Z;
     format_6f := fun z => str_of_int z ++ py ".000000" |}.

End PyStr.

Import PyStr.
Local Open Scope Z_scope.

(** ** The store of [db.py] *)

Module Db.

(** A row of [events]. *)
Record event_row := {
  ev_id : Z;
  ev_user_id : Z;
  ev_title : str;
  ev_type : str;
  ev_time : str;
  ev_location : str;
  ev_created_at : str;
}.

(** A row of [rsvp].  Its surrogate key [id] is never read by the program
    and is left out; the natural key is [(event_id, user_id)]. *)
Record rsvp_row := {
  rs_event_id : Z;
  rs_user_id : Z;
  rs_status : str;
  rs_updated_at : str;
}.

(** The content of the database file: both tables in insertion order and
    the AUTOINCREMENT counter of [events] (the largest id ever given). *)
Record Database := {
  events : list event_row;
  events_seq : Z;
  rsvp : list rsvp_row;
}.

(** What [_ensure_tables] leaves in a fresh file. *)
Definition empty : Database :=
  {| events := []; events_seq := 0; rsvp := [] |}.

Definition same_key (event_id user_id : Z) (r : rsvp_row) : bool :=
  (rs_event_id r =? event_id) && (rs_user_id r =? user_id).

(** [create_event]: one INSERT; returns [lastrowid].  [now] is the clock
    reading [datetime.utcnow().isoformat(...)]. *)
Definition create_event (now : str) (user_id : Z)
    (title event_type time location : str) (d : Database) : Z * Database :=
  let new_id := events_seq d + 1 in
  (new_id,
   {| events := events d ++
        [{| ev_id := new_id; ev_user_id := user_id; ev_title := title;
            ev_type := event_type; ev_time := time;
            ev_location := location; ev_created_at := now |}];
      events_seq := new_id;
      rsvp := rsvp d |}).

(** [delete_event]: DELETE ... WHERE id = ? AND user_id = ?, with the
    foreign key of [rsvp] cascading; returns [rowcount > 0]. *)
Definition delete_event (event_id user_id : Z) (d : Database)
    : bool * Database :=
  let hit e := (ev_id e =? event_id) && (ev_user_id e =? user_id) in
  let deleted := List.filter hit (events d) in
  let orphaned r := existsb (fun e => ev_id e =? rs_event_id r) deleted in
  (0 <? Z.of_nat (length deleted),
   {| events := List.filter (fun e => negb (hit e)) (events d);
      events_seq := events_seq d;
      rsvp := List.filter (fun r => negb (orphaned r)) (rsvp d) |}).

(** The order of two TEXT values under the BINARY collation of SQLite: the
    bytes of the UTF-8 encodings are compared, which orders the texts by
    their code points, a proper prefix first. *)
Fixpoint text_compare (a b : str) : comparison :=
  match a, b with
  | [], [] => Eq
  | [], _ :: _ => Lt
  | _ :: _, [] => Gt
  | x :: a', y :: b' =>
      match (x ?= y)%N with
      | Eq => text_compare a' b'
      | c => c
      end
  end.

Definition text_ltb (a b : str) : bool :=
  match text_compare a b with Lt => true | _ => false end.

(** One more row among rows that are in the order of ORDER BY created_at
    DESC; the row goes before the rows that are not newer than it. *)
Fixpoint insert_desc (e : event_row) (sorted : list event_row)
    : list event_row :=
  match sorted with
  | [] => [e]
  | x :: rest =>
      if text_ltb (ev_created_at e) (ev_created_at x)
      then x :: insert_desc e rest
      else e :: sorted
  end.

(** [get_events_by_user]: SELECT ... WHERE user_id = ? ORDER BY created_at
    DESC.  SQL leaves the order among rows of one [created_at] open; here
    they keep the order of the table, as the engine's sorter has it. *)
Definition get_events_by_user (user_id : Z) (d : Database)
    : list event_row :=
  fold_right insert_desc []
    (List.filter (fun e => ev_user_id e =? user_id) (events d)).

(** [get_event]: [fetchone] of SELECT ... WHERE id = ?. *)
Definition get_event (event_id : Z) (d : Database) : option event_row :=
  List.find (fun e => ev_id e =? event_id) (events d).

(** [upsert_rsvp]: INSERT ... ON CONFLICT(event_id, user_id) DO UPDATE.
    With [PRAGMA foreign_keys = ON] an insert whose [event_id] names no
    event fails: [None] is [sqlite3.IntegrityError], nothing written. *)
Definition upsert_rsvp (now : str) (event_id user_id : Z) (status : str)
    (d : Database) : option Database :=
  if existsb (same_key event_id user_id) (rsvp d)
  then Some
    {| events := events d;
       events_seq := events_seq d;
       rsvp := List.map (fun r =>
                 if same_key event_id user_id r
                 then {| rs_event_id := rs_event_id r;
                         rs_user_id := rs_user_id r;
                         rs_status := status;
                         rs_updated_at := now |}
                 else r) (rsvp d) |}
  else if existsb (fun e => ev_id e =? event_id) (events d)
  then Some
    {| events := events d;
       events_seq := events_seq d;
       rsvp := rsvp d ++
         [{| rs_event_id := event_id; rs_user_id := user_id;
             rs_status := status; rs_updated_at := now |}] |}
  else None.

(** [get_rsvp]: [fetchone] of SELECT ... WHERE event_id = ? AND user_id = ?. *)
Definition get_rsvp (event_id user_id : Z) (d : Database)
    : option rsvp_row :=
  List.find (same_key event_id user_id) (rsvp d).

(** [list_event_participants] *)
Definition list_event_participants (event_id : Z) (d : Database)
    : list rsvp_row :=
  List.filter (fun r => rs_event_id r =? event_id) (rsvp d).

(** One more row of status [st] in the groups of a GROUP BY status. *)
Fixpoint bump (st : str) (groups : list (str * Z)) : list (str * Z) :=
  match groups with
  | [] => [(st, 1)]
  | (k, total) :: rest =>
      if decide (k = st) then (k, total + 1) :: rest
      else (k, total) :: bump st rest
  end.

(** SELECT status, COUNT( * ) ... GROUP BY status over [rows].  SQL leaves
    the order of the groups open; here they come in order of first
    occurrence. *)
Definition group_by_status (rows : list rsvp_row) : list (str * Z) :=
  fold_left (fun groups r => bump (rs_status r) groups) rows [].

Definition zero_counts : gmap (list N) Z :=
  <[py "yes" := 0]> (<[py "no" := 0]> (<[py "maybe" := 0]> ∅)).

(** [get_rsvp_counts]: SELECT status, COUNT( * ) FROM rsvp WHERE
    event_id = ? GROUP BY status; the dict starts with the three keys at 0
    and each group assigns [counts[status.lower()] = total]. *)
Definition get_rsvp_counts `{Interpreter} (event_id : Z) (d : Database)
    : gmap (list N) Z :=
  fold_left (fun counts '(st, total) => <[lower st := total]> counts)
    (group_by_status
       (List.filter (fun r => rs_event_id r =? event_id) (rsvp d)))
    zero_counts.

(** *** What the schema guarantees *)

(** The constraints of [_ensure_tables]: the primary key of [events] is
    unique and was handed out by the counter, [(event_id, user_id)] is
    unique in [rsvp], and every [rsvp] row names an event that [get_event]
    finds. *)
Record schema_ok (d : Database) : Prop := {
  pk_unique : NoDup (List.map ev_id (events d));
  pk_below_seq : forall e, In e (events d) -> ev_id e <= events_seq d;
  key_unique :
    NoDup (List.map (fun r => (rs_event_id r, rs_user_id r)) (rsvp d));
  fk_holds :
    forall r, In r (rsvp d) -> is_Some (get_event (rs_event_id r) d);
}.

(** The databases the methods of the class can produce from a fresh file,
    whatever their arguments. *)
Inductive reachable : Database -> Prop :=
| reachable_empty : reachable empty
| reachable_create now user_id title event_type time location d :
    reachable d ->
    reachable
      (snd (create_event now user_id title event_type time location d))
| reachable_delete event_id user_id d :
    reachable d -> reachable (snd (delete_event event_id user_id d))
| reachable_upsert now event_id user_id status d d' :
    reachable d ->
    upsert_rsvp now event_id user_id status d = Some d' ->
    reachable d'.

(** The rows of [rsvp] under the key [(event_id, user_id)]. *)
Definition rows_of_key (event_id user_id : Z) (d : Database)
    : list rsvp_row :=
  List.filter (same_key event_id user_id) (rsvp d).

(** The database after a call of [upsert_rsvp], returned or raised: a
    failed statement is rolled back. *)
Definition after_upsert (now : str) (event_id user_id : Z) (status : str)
    (d : Database) : Database :=
  default d (upsert_rsvp now event_id user_id status d).

(** Two calls of [upsert_rsvp] on one key, with [s1] then [s2], leave
    exactly one row under the key, and it holds [s2]. *)
Definition upsert_twice_keeps_latest (now1 now2 : str) (event_id user_id : Z)
    (s1 s2 : str) (d : Database) : Prop :=
  let d2 :=
    after_upsert now2 event_id user_id s2
      (after_upsert now1 event_id user_id s1 d) in
  exists r, rows_of_key event_id user_id d2 = [r] /\ rs_status r = s2.

(** Every stored status is one of the three the data model names. *)
Definition statuses_ok (d : Database) : Prop :=
  forall r, In r (rsvp d) ->
    rs_status r ∈ [py "yes"; py "no"; py "maybe"].

(** Number of rows of the table [rsvp] that name the event and hold the
    status [st]. *)
Definition status_count (event_id : Z) (st : str) (d : Database) : Z :=
  Z.of_nat
    (length
       (List.filter
          (fun r => (rs_event_id r =? event_id)
                      && bool_decide (rs_status r = st))
          (rsvp d))).

(** The total the groups hold for a status, 0 when it has no group. *)
Definition total_of (st : str) (groups : list (str * Z)) : Z :=
  default 0
    (snd <$> List.find (fun g => bool_decide (fst g = st)) groups).

(** The distinct responders of the event: the users that a row of the
    table [rsvp] names together with the event, each once. *)
Definition responders (event_id : Z) (d : Database) : list Z :=
  remove_dups
    (List.map rs_user_id
       (List.filter (fun r => rs_event_id r =? event_id) (rsvp d))).

(** The integers of an INTEGER column, which are the only ones the
    driver binds to a statement: on any other argument a method raises
    OverflowError before it reaches the database.  The methods are
    modelled on these integers. *)
Definition sqlite_int (n : Z) : Prop := - 2 ^ 63 <= n < 2 ^ 63.

(** [d'] is what calls of the methods of the class make of [d]. *)
Inductive evolves (d : Database) : Database -> Prop :=
| evolves_refl : evolves d d
| evolves_create now user_id title event_type time location d' :
    evolves d d' ->
    evolves d
      (snd (create_event now user_id title event_type time location d'))
| evolves_delete event_id user_id d' :
    evolves d d' -> evolves d (snd (delete_event event_id user_id d'))
| evolves_upsert now event_id user_id status d' d'' :
    evolves d d' ->
    upsert_rsvp now event_id user_id status d' = Some d'' ->
    evolves d d''.

(** Rows in the order of ORDER BY created_at DESC: no row is older than a
    row that follows it. *)
Definition newest_first (rows : list event_row) : Prop :=
  StronglySorted
    (fun a b => text_compare (ev_created_at a) (ev_created_at b) <> Lt)
    rows.

End Db.

(** ** The handlers of [bot.py] *)

Module Bot.

(** *** What the messaging gateway delivers and accepts *)

(** Exceptions the handlers do not catch. *)
Inductive exn :=
| KeyError
| IndexError
| AttributeError
| TypeError
| IntegrityError.

(** [types.InlineKeyboardButton(text, callback_data=...)] *)
Record InlineKeyboardButton := {
  button_text : str;
  callback_data : str;
}.

(** [types.InlineKeyboardMarkup]: rows of buttons. *)
Abbreviation InlineKeyboardMarkup := (list (list InlineKeyboardButton)).

Section WithInterpreter.
Context `{Interpreter}.

(** [message.location] *)
Record Location := {
  latitude : float;
  longitude : float;
}.

(** [types.Message], with [message.chat.id], [message.chat.type] and
    [message.from_user.id] as fields of their own. *)
Record Message := {
  message_id : Z;
  chat_id : Z;
  chat_type : str;
  from_user_id : Z;
  content_type : str;
  text : option str;
  location : option Location;
}.

(** [types.CallbackQuery] *)
Record CallbackQuery := {
  call_id : str;
  call_from_user_id : Z;
  call_data : str;
  call_message : Message;
}.

(** The calls the handlers make on [bot].  A call is taken to succeed,
    except the edit of a message, whose refusal the handlers catch; updates
    are handled one after the other. *)
Inductive api_call :=
| send_message (chat : Z) (body : str)
    (reply_markup : option InlineKeyboardMarkup)
| reply_to (m : Message) (body : str)
| answer_callback_query (id : str) (body : option str) (show_alert : bool)
| edit_message_text (body : str) (chat msg : Z)
    (reply_markup : option InlineKeyboardMarkup).

(** *** Program state *)

Definition DEFAULT_TIME_TEXT : str := py "Tomorrow 19:00".

(** [EventCreationState] *)
Record EventCreationState := {
  step_index : nat;
  data : gmap (list N) (list N);
}.

Definition steps : list str :=
  [py "title"; py "location"; py "type"; py "time"].

(** [EventCreationState()] *)
Definition new_state : EventCreationState :=
  {| step_index := 0; data := ∅ |}.

(** [state.advance()] *)
Definition advance (st : EventCreationState) : EventCreationState :=
  {| step_index := S (step_index st); data := data st |}.

(** [state.is_complete()] *)
Definition is_complete (st : EventCreationState) : bool :=
  bool_decide (length steps ≤ step_index st)%nat.

(** [state.data[k] = v] *)
Definition set_data (k v : str) (st : EventCreationState)
    : EventCreationState :=
  {| step_index := step_index st; data := <[k := v]> (data st) |}.

(** The module globals [db], [user_states] and [BOT_USERNAME]. *)
Record World := {
  db : Db.Database;
  user_states : gmap Z EventCreationState;
  BOT_USERNAME : option str;
}.

(** Process start: the database file as found, no conversation, no cached
    user name. *)
Definition start (d : Db.Database) : World :=
  {| db := d; user_states := ∅; BOT_USERNAME := None |}.

(** *** Handlers as computations *)

(** A handler runs on the world, leaves a world, has made some calls on
    the gateway, and returns or raises.  Writes made before a raise stay. *)
Record outcome (A : Type) := {
  world_after : World;
  sent : list api_call;
  result : exn + A;
}.
Arguments world_after {A}.
Arguments sent {A}.
Arguments result {A}.

Definition M (A : Type) : Type := World -> outcome A.

Definition ret {A} (a : A) : M A :=
  fun w => {| world_after := w; sent := []; result := inr a |}.

Definition raise {A} (e : exn) : M A :=
  fun w => {| world_after := w; sent := []; result := inl e |}.

Definition bind {A B} (m : M A) (k : A -> M B) : M B :=
  fun w =>
    let o := m w in
    match result o with
    | inl e =>
        {| world_after := world_after o; sent := sent o; result := inl e |}
    | inr a =>
        let o' := k a (world_after o) in
        {| world_after := world_after o';
           sent := sent o ++ sent o';
           result := result o' |}
    end.

Definition read {A} (f : World -> A) : M A :=
  fun w => {| world_after := w; sent := []; result := inr (f w) |}.

Definition write (f : World -> World) : M unit :=
  fun w => {| world_after := f w; sent := []; result := inr tt |}.

Definition call (c : api_call) : M unit :=
  fun w => {| world_after := w; sent := [c]; result := inr tt |}.

(** The outcome [o] of a computation that ran after the calls [cs]. *)
Definition after_calls {A} (cs : list api_call) (o : outcome A)
    : outcome A :=
  {| world_after := world_after o;
     sent := cs ++ sent o;
     result := result o |}.

(** [d[k]] on a dict or [l[i]] on a list: the value or the exception. *)
Definition item {A} (e : exn) (o : option A) : M A :=
  match o with
  | Some a => ret a
  | None => raise e
  end.

Notation "x <- m ;; k" := (bind m (fun x => k))
  (at level 100, m at next level, right associativity).
Notation "m ;; k" := (bind m (fun _ => k))
  (at level 100, right associativity).

Definition set_db (d : Db.Database) (w : World) : World :=
  {| db := d; user_states := user_states w; BOT_USERNAME := BOT_USERNAME w |}.

Definition set_user_states (us : gmap Z EventCreationState) (w : World)
    : World :=
  {| db := db w; user_states := us; BOT_USERNAME := BOT_USERNAME w |}.

Definition set_username (u : str) (w : World) : World :=
  {| db := db w; user_states := user_states w; BOT_USERNAME := Some u |}.

(** Python's [==] on two [str]. *)
Definition str_eq (a b : str) : bool := bool_decide (a = b).

(** *** Rendering *)

(** [escape_html] *)
Definition escape_html (s : str) : str :=
  replace 62 (py "&gt;") (replace 60 (py "&lt;") (replace 38 (py "&amp;") s)).

(** The gateway's answer to [bot.get_me()]: [info.username]. *)
Variable me_username : option str.

(** [ensure_bot_username]: the cached name when it is set and non-empty,
    else the gateway's, which is cached. *)
Definition ensure_bot_username : M str :=
  cached <- read BOT_USERNAME ;;
  match cached with
  | Some (c :: u) => ret (c :: u)
  | _ =>
      let u := default [] me_username in
      write (set_username u) ;;
      ret u
  end.

(** [get_invite_link] *)
Definition get_invite_link (event_id : Z) : M str :=
  username <- ensure_bot_username ;;
  ret (py "https://t.me/" ++ username ++ py "?start=join_"
         ++ str_of_int event_id).

(** [build_rsvp_markup]: one row of three buttons. *)
Definition build_rsvp_markup (event_id : Z) : InlineKeyboardMarkup :=
  [List.map (fun '(label, status) =>
      {| button_text := label;
         callback_data :=
           py "rsvp:" ++ str_of_int event_id ++ py ":" ++ status |})
     [ (9989%N :: py " Yes", py "yes");
       (10060%N :: py " No", py "no");
       (10068%N :: py " Maybe", py "maybe") ]].

(** [counts.get(k, 0)] *)
Definition counts_get (counts : gmap (list N) Z) (k : str) : Z :=
  default 0 (counts !! k).

(** ["Not set" if not user_status else user_status.title()] *)
Definition status_text (user_status : option str) : str :=
  match user_status with
  | None | Some [] => py "Not set"
  | Some s => str_title s
  end.

(** [build_event_text] *)
Definition build_event_text (event : Db.event_row)
    (user_status : option str) (counts : option (gmap (list N) Z))
    (include_invite show_status : bool) : M str :=
  let lines :=
    [ 128204%N :: py " <b>" ++ escape_html (Db.ev_title event) ++ py "</b>";
      py "Type: " ++ escape_html (Db.ev_type event);
      py "Time: " ++ escape_html (Db.ev_time event);
      py "Location: " ++ escape_html (Db.ev_location event) ] in
  let lines :=
    match counts with
    | Some c =>
        lines ++
        [ py "RSVPs " ++ 8212%N :: py " Yes: "
            ++ str_of_int (counts_get c (py "yes"))
            ++ py " | No: " ++ str_of_int (counts_get c (py "no"))
            ++ py " | Maybe: " ++ str_of_int (counts_get c (py "maybe")) ]
    | None => lines
    end in
  let lines :=
    if show_status
    then lines ++ [py "Your RSVP: " ++ status_text user_status]
    else lines in
  lines <-
    (if include_invite
     then
       link <- get_invite_link (Db.ev_id event) ;;
       ret (lines ++
              [py "Invite friends " ++ 10140%N :: 32%N :: escape_html link])
     else ret lines) ;;
  ret (join [10%N] lines).

(** [prompt_for_step] *)
Definition prompt_for_step (chat : Z) (step : str) : M unit :=
  if str_eq step (py "title") then
    call (send_message chat
      (py "Let's plan tomorrow! What's the event name or short description?"
         ++ [10%N; 10%N] ++ py "Send /cancel to stop anytime.") None)
  else if str_eq step (py "location") then
    call (send_message chat
      (py "Where will it happen? Send a location pin or type the place.")
      None)
  else if str_eq step (py "type") then
    call (send_message chat
      (py "What type of event is it? (e.g., dinner, movie, walk)") None)
  else if str_eq step (py "time") then
    call (send_message chat
      (py "What time tomorrow? Use 24-hour format like 19:00. Leave empty for "
         ++ DEFAULT_TIME_TEXT ++ py ".") None)
  else ret tt.

(** [reset_state]: [user_states.pop(user_id, None)] *)
Definition reset_state (user_id : Z) : M unit :=
  write (fun w => set_user_states (delete user_id (user_states w)) w).

(** [user_has_access] *)
Definition user_has_access (event_row : Db.event_row) (user_id : Z)
    : M bool :=
  if Db.ev_user_id event_row =? user_id then ret true
  else
    row <- read (fun w => Db.get_rsvp (Db.ev_id event_row) user_id (db w)) ;;
    ret (bool_decide (is_Some row)).

(** [db.upsert_rsvp] as a call of a handler. *)
Definition db_upsert_rsvp (now : str) (event_id user_id : Z) (status : str)
    : M unit :=
  d <- read db ;;
  match Db.upsert_rsvp now event_id user_id status d with
  | Some d' => write (set_db d')
  | None => raise IntegrityError
  end.

(** *** Joining through an invite link *)

(** [handle_join_event] *)
Definition handle_join_event (now : str) (message : Message) (event_id : Z)
    : M unit :=
  if negb (str_eq (chat_type message) (py "private")) then
    call (reply_to message
            (py "Please message me privately to join this event."))
  else
    event <- read (fun w => Db.get_event event_id (db w)) ;;
    match event with
    | None =>
        call (reply_to message (py "Event not found or already deleted."))
    | Some event =>
        let user_id := from_user_id message in
        rsvp_row <- read (fun w => Db.get_rsvp event_id user_id (db w)) ;;
        let status :=
          match rsvp_row with
          | Some r => Db.rs_status r
          | None => py "maybe"
          end in
        match rsvp_row with
        | None => db_upsert_rsvp now event_id user_id status
        | Some _ => ret tt
        end ;;
        counts <- read (fun w => Db.get_rsvp_counts event_id (db w)) ;;
        body <- build_event_text event (Some status) (Some counts)
                  false true ;;
        call (send_message (chat_id message)
                (py "You're invited to an event for tomorrow!"
                   ++ [10%N; 10%N] ++ body)
                (Some (build_rsvp_markup event_id)))
    end.

(** *** The creation dialogue *)

(** [finish_event_creation] *)
Definition finish_event_creation (now : str) (user_id chat : Z)
    (state : EventCreationState) : M unit :=
  title <- item KeyError (data state !! py "title") ;;
  event_type <- item KeyError (data state !! py "type") ;;
  time <- item KeyError (data state !! py "time") ;;
  location <- item KeyError (data state !! py "location") ;;
  d <- read db ;;
  let '(event_id, d') :=
    Db.create_event now user_id title event_type time location d in
  write (set_db d') ;;
  reset_state user_id ;;
  event <- read (fun w => Db.get_event event_id (db w)) ;;
  counts <- read (fun w => Db.get_rsvp_counts event_id (db w)) ;;
  event <- item TypeError event ;;
  body <- build_event_text event None (Some counts) true true ;;
  call (send_message chat
          (py "Event saved! Share it with friends." ++ [10%N; 10%N] ++ body)
          (Some (build_rsvp_markup event_id))).

(** What [handle_start] reads in the text of the command: no join token,
    a join token whose id does not parse, or the id of the event. *)
Inductive start_token :=
| no_token
| bad_token
| join_token (event_id : Z).

(** The parse at the head of [handle_start]. *)
Definition parse_start (t : str) : start_token :=
  match split_ws t !! 1%nat with
  | Some arg =>
      if startswith (py "join_") arg then
        match split1 95 arg !! 1%nat with
        | None => bad_token
        | Some tail =>
            match int tail with
            | None => bad_token
            | Some event_id => join_token event_id
            end
        end
      else no_token
  | None => no_token
  end.

(** [handle_start] *)
Definition handle_start (now : str) (message : Message) : M unit :=
  t <- item AttributeError (text message) ;;
  match parse_start t with
  | join_token event_id => handle_join_event now message event_id
  | bad_token => call (reply_to message (py "Invalid invitation link."))
  | no_token =>
      call (send_message (chat_id message)
        (py "Hi! I'm Tomorrow Planner. Use /new to create an event for tomorrow or /help for all commands.")
        None)
  end.

(** [handle_help] *)
Definition handle_help (message : Message) : M unit :=
  call (send_message (chat_id message)
    (py "Commands:" ++ 10%N :: py "/new " ++ 8211%N
       :: py " create an event for tomorrow" ++ 10%N :: py "/my " ++ 8211%N
       :: py " manage events you created" ++ 10%N :: py "/help " ++ 8211%N
       :: py " show this help message")
    None).

(** [handle_new] *)
Definition handle_new (message : Message) : M unit :=
  if negb (str_eq (chat_type message) (py "private")) then
    call (reply_to message
            (py "Please start a private chat with me to create events."))
  else
    write (fun w =>
      set_user_states
        (<[from_user_id message := new_state]> (user_states w)) w) ;;
    prompt_for_step (chat_id message) (py "title").

(** [handle_cancel] *)
Definition handle_cancel (message : Message) : M unit :=
  us <- read user_states ;;
  match us !! from_user_id message with
  | Some _ =>
      reset_state (from_user_id message) ;;
      call (reply_to message (py "Event creation cancelled."))
  | None => call (reply_to message (py "Nothing to cancel."))
  end.

(** A [for] loop over a list. *)
Fixpoint for_each {A} (l : list A) (body : A -> M unit) : M unit :=
  match l with
  | [] => ret tt
  | x :: rest => body x ;; for_each rest body
  end.

(** [handle_my] *)
Definition handle_my (message : Message) : M unit :=
  if negb (str_eq (chat_type message) (py "private")) then
    call (reply_to message
            (py "Please open a private chat to view your events."))
  else
    events <-
      read (fun w => Db.get_events_by_user (from_user_id message) (db w)) ;;
    match events with
    | [] =>
        call (send_message (chat_id message)
          (py "You haven't created any events yet. Use /new to start.")
          None)
    | _ =>
        for_each events (fun event =>
          let summary :=
            py "<b>" ++ escape_html (Db.ev_title event) ++ py "</b> "
              ++ 8212%N :: py " " ++ escape_html (Db.ev_time event)
              ++ py " (" ++ escape_html (Db.ev_type event) ++ py ")" in
          let markup :=
            [ [ {| button_text := py "View";
                   callback_data :=
                     py "view:" ++ str_of_int (Db.ev_id event) |} ];
              [ {| button_text := py "Delete";
                   callback_data :=
                     py "delete:" ++ str_of_int (Db.ev_id event) |} ] ] in
          call (send_message (chat_id message) summary (Some markup)))
    end.

(** [not t or not t.strip()] on [message.text] *)
Definition blank (t : option str) : bool :=
  match t with
  | None => true
  | Some t => match strip t with [] => true | _ => false end
  end.

(** The value the location step stores: the label of a pin, else the
    trimmed text; [None] when the message has neither. *)
Definition location_value (message : Message) : option str :=
  match (if str_eq (content_type message) (py "location")
         then location message else None) with
  | Some loc =>
      Some (py "Pin: " ++ format_6f (latitude loc) ++ py ", "
              ++ format_6f (longitude loc))
  | None =>
      if blank (text message) then None
      else Some (strip (default [] (text message)))
  end.

(** The value the time step stores for the text of the message. *)
Definition time_value (message_text : option str) : str :=
  let user_text :=
    match message_text with
    | None | Some [] => []
    | Some t => strip t
    end in
  match user_text with
  | [] => DEFAULT_TIME_TEXT
  | _ =>
      if (length user_text =? 5)%nat
         && bool_decide (user_text !! 2%nat = Some 58%N)
         && isdigit (replace 58 [] user_text)
      then py "Tomorrow " ++ user_text
      else user_text
  end.

(** Store [value] for the current step of [user_id], advance, and prompt
    for the step that follows. *)
Definition store_and_advance (message : Message)
    (state : EventCreationState) (key value : str) : M unit :=
  let state' := advance (set_data key value state) in
  write (fun w =>
    set_user_states (<[from_user_id message := state']> (user_states w)) w) ;;
  next <- item IndexError (steps !! step_index state') ;;
  prompt_for_step (chat_id message) next.

(** [handle_event_creation] *)
Definition handle_event_creation (now : str) (message : Message) : M unit :=
  us <- read user_states ;;
  state <- item KeyError (us !! from_user_id message) ;;
  step <- item IndexError (steps !! step_index state) ;;
  if str_eq step (py "title") then
    if blank (text message) then
      call (reply_to message
        (py "Please send a short title or description for the event."))
    else store_and_advance message state (py "title")
           (strip (default [] (text message)))
  else if str_eq step (py "location") then
    match location_value message with
    | Some value => store_and_advance message state (py "location") value
    | None =>
        call (reply_to message
                (py "Send a location pin or type the location."))
    end
  else if str_eq step (py "type") then
    if blank (text message) then
      call (reply_to message
        (py "Please tell me the event type (e.g., dinner, movie, walk)."))
    else store_and_advance message state (py "type")
           (strip (default [] (text message)))
  else if str_eq step (py "time") then
    if negb (str_eq (content_type message) (py "text")) then
      call (reply_to message (py "Please type the time, for example 19:30."))
    else
      let state' := set_data (py "time") (time_value (text message)) state in
      write (fun w =>
        set_user_states
          (<[from_user_id message := state']> (user_states w)) w) ;;
      finish_event_creation now (from_user_id message) (chat_id message)
        state'
  else ret tt.

(** *** Button presses *)

(** [handle_view_callback] *)
Definition handle_view_callback (call_ : CallbackQuery) (event_id : Z)
    : M unit :=
  let user_id := call_from_user_id call_ in
  event <- read (fun w => Db.get_event event_id (db w)) ;;
  match event with
  | None =>
      call (answer_callback_query (call_id call_)
              (Some (py "Event not found.")) true)
  | Some event =>
      access <- user_has_access event user_id ;;
      if negb access then
        call (answer_callback_query (call_id call_)
                (Some (py "You do not have access to this event.")) true)
      else
        counts <- read (fun w => Db.get_rsvp_counts event_id (db w)) ;;
        rsvp_row <- read (fun w => Db.get_rsvp event_id user_id (db w)) ;;
        body <- build_event_text event (Db.rs_status <$> rsvp_row)
                  (Some counts) (Db.ev_user_id event =? user_id) true ;;
        call (answer_callback_query (call_id call_) None false) ;;
        call (send_message (chat_id (call_message call_)) body
                (Some (build_rsvp_markup event_id)))
  end.

(** [handle_delete_callback].  [edit_ok] tells whether the gateway accepts
    the edit of the message; when it raises [ApiTelegramException] the
    handler sends a new message instead. *)
Definition handle_delete_callback (edit_ok : bool) (call_ : CallbackQuery)
    (event_id : Z) : M unit :=
  let user_id := call_from_user_id call_ in
  event <- read (fun w => Db.get_event event_id (db w)) ;;
  match event with
  | Some event =>
      if negb (Db.ev_user_id event =? user_id) then
        call (answer_callback_query (call_id call_)
                (Some (py "You can only delete your own events.")) true)
      else
        d <- read db ;;
        let '(deleted, d') := Db.delete_event event_id user_id d in
        write (set_db d') ;;
        if deleted then
          call (answer_callback_query (call_id call_)
                  (Some (py "Event deleted.")) false) ;;
          if edit_ok then
            call (edit_message_text (py "Event deleted.")
                    (chat_id (call_message call_))
                    (message_id (call_message call_)) None)
          else
            call (send_message (chat_id (call_message call_))
                    (py "Event deleted.") None)
        else
          call (answer_callback_query (call_id call_)
                  (Some (py "Event not found.")) true)
  | None =>
      call (answer_callback_query (call_id call_)
              (Some (py "You can only delete your own events.")) true)
  end.

(** [handle_rsvp_callback] *)
Definition handle_rsvp_callback (now : str) (edit_ok : bool)
    (call_ : CallbackQuery) (event_id : Z) (status : str) : M unit :=
  let user_id := call_from_user_id call_ in
  if negb (bool_decide (status ∈ [py "yes"; py "no"; py "maybe"])) then
    call (answer_callback_query (call_id call_)
            (Some (py "Unknown option.")) true)
  else
    event <- read (fun w => Db.get_event event_id (db w)) ;;
    match event with
    | None =>
        call (answer_callback_query (call_id call_)
                (Some (py "Event not found.")) true)
    | Some event =>
        access <- user_has_access event user_id ;;
        if negb access then
          call (answer_callback_query (call_id call_)
                  (Some (py "Join via the invite link first.")) true)
        else
          db_upsert_rsvp now event_id user_id status ;;
          counts <- read (fun w => Db.get_rsvp_counts event_id (db w)) ;;
          body <- build_event_text event (Some status) (Some counts)
                    (Db.ev_user_id event =? user_id) true ;;
          (if edit_ok then
             call (edit_message_text body (chat_id (call_message call_))
                     (message_id (call_message call_))
                     (Some (build_rsvp_markup event_id)))
           else
             call (send_message (chat_id (call_message call_)) body
                     (Some (build_rsvp_markup event_id)))) ;;
          call (answer_callback_query (call_id call_)
                  (Some (py "RSVP set to " ++ str_title status ++ py "."))
                  false)
    end.

(** [handle_callbacks] *)
Definition handle_callbacks (now : str) (edit_ok : bool)
    (call_ : CallbackQuery) : M unit :=
  let payload := call_data call_ in
  if startswith (py "view:") payload then
    id_part <- item IndexError (split1 58 payload !! 1%nat) ;;
    match int id_part with
    | None =>
        call (answer_callback_query (call_id call_)
                (Some (py "Invalid event id.")) true)
    | Some event_id => handle_view_callback call_ event_id
    end
  else if startswith (py "delete:") payload then
    id_part <- item IndexError (split1 58 payload !! 1%nat) ;;
    match int id_part with
    | None =>
        call (answer_callback_query (call_id call_)
                (Some (py "Invalid event id.")) true)
    | Some event_id => handle_delete_callback edit_ok call_ event_id
    end
  else if startswith (py "rsvp:") payload then
    match split 58 payload with
    | [_; id_part; status] =>
        match int id_part with
        | None =>
            call (answer_callback_query (call_id call_)
                    (Some (py "Invalid RSVP data.")) true)
        | Some event_id =>
            handle_rsvp_callback now edit_ok call_ event_id status
        end
    | _ =>
        call (answer_callback_query (call_id call_)
                (Some (py "Invalid RSVP data.")) true)
    end
  else call (answer_callback_query (call_id call_) None false).

(** *** The program as a transition system *)

(** What the gateway hands to the program, by the handler its decorators
    select: a command, a text or location message that is no command, or
    a button press.  ([/my] only reads the store and is not modelled.) *)
Inductive update :=
| start_command (m : Message)
| help_command (m : Message)
| new_command (m : Message)
| cancel_command (m : Message)
| plain_message (m : Message)
| button_press (edit_ok : bool) (c : CallbackQuery).

(** The handler that runs for an update at clock reading [now].  A plain
    message reaches [handle_event_creation] only while its sender is in
    [user_states] and its content type is text or location. *)
Definition handle (now : str) (u : update) : M unit :=
  match u with
  | start_command m => handle_start now m
  | help_command m => handle_help m
  | new_command m => handle_new m
  | cancel_command m => handle_cancel m
  | plain_message m =>
      us <- read user_states ;;
      if bool_decide (is_Some (us !! from_user_id m))
         && bool_decide (content_type m ∈ [py "text"; py "location"])
      then handle_event_creation now m
      else ret tt
  | button_press edit_ok c => handle_callbacks now edit_ok c
  end.

Definition step (now : str) (u : update) (w : World) : World :=
  world_after (handle now u w).

(** The worlds the program can be in: it starts on a fresh database file,
    handles updates one after the other, and may be restarted on the file
    it left. *)
Inductive reachable : World -> Prop :=
| reachable_start : reachable (start Db.empty)
| reachable_step now u w : reachable w -> reachable (step now u w)
| reachable_restart w : reachable w -> reachable (start (db w)).


(** *** Notions the properties are stated with *)


(** A computation keeps a property of the database. *)
Definition keeps (P : Db.Database -> Prop) {A} (m : M A) : Prop :=
  forall w, P (db w) -> P (db (world_after (m w))).

(** A computation returns without touching the database or the
    conversations. *)
Definition quiet {A} (m : M A) : Prop :=
  forall w, exists a w',
    m w = {| world_after := w'; sent := []; result := inr a |} /\
    db w' = db w /\ user_states w' = user_states w.

(** The text of the command a client sends when a deep link with the
    given [start] parameter is opened. *)
Definition deep_link_command (parameter : str) : str :=
  py "/start " ++ parameter.

(** The strict pattern of the specification: two digits, a colon, two
    digits. *)
Definition strict_hhmm (s : str) : bool :=
  match s with
  | [h1; h2; c; m1; m2] =>
      isdigit_char h1 && isdigit_char h2 && (c =? 58)%N
      && isdigit_char m1 && isdigit_char m2
  | _ => false
  end.


(** The payloads of a button press that are malformed: a view or delete
    payload whose id part [int] does not read, an rsvp payload that does
    not have three colon-delimited parts, or one whose id part [int] does
    not read. *)
Inductive malformed : str -> Prop :=
| malformed_view id_part :
    int id_part = None -> malformed (py "view:" ++ id_part)
| malformed_delete id_part :
    int id_part = None -> malformed (py "delete:" ++ id_part)
| malformed_rsvp_arity payload :
    startswith (py "rsvp:") payload = true ->
    length (split 58 payload) <> 3%nat ->
    malformed payload
| malformed_rsvp_id payload head id_part status :
    startswith (py "rsvp:") payload = true ->
    split 58 payload = [head; id_part; status] ->
    int id_part = None ->
    malformed payload.

(** The invariant of the database in every world of the program. *)
Definition db_inv (d : Db.Database) : Prop :=
  Db.schema_ok d /\ Db.statuses_ok d.

(** The user an update comes from. *)
Definition update_user (u : update) : Z :=
  match u with
  | start_command m | help_command m | new_command m | cancel_command m
  | plain_message m => from_user_id m
  | button_press _ c => call_from_user_id c
  end.

(** What a run on behalf of user [a] at clock reading [now] may make of
    a world: the conversations of the others stay, a row of [rsvp] that
    is new or changed is [a]'s and carries [now], an event that is new
    is [a]'s and carries [now], and an event that is gone was [a]'s. *)
Record acts_for (a : Z) (now : str) (w w' : World) : Prop := {
  others_states :
    forall b, b <> a -> user_states w' !! b = user_states w !! b;
  rsvp_written :
    forall r, In r (Db.rsvp (db w')) ->
      In r (Db.rsvp (db w)) \/
      (Db.rs_user_id r = a /\ Db.rs_updated_at r = now);
  events_written :
    forall e, In e (Db.events (db w')) ->
      In e (Db.events (db w)) \/
      (Db.ev_user_id e = a /\ Db.ev_created_at e = now);
  events_removed :
    forall e, In e (Db.events (db w)) ->
      In e (Db.events (db w')) \/ Db.ev_user_id e = a;
}.

(** Every run of a computation is within a relation on worlds. *)
Definition within (R : World -> World -> Prop) {A} (m : M A) : Prop :=
  forall w, R w (world_after (m w)).

(** A conversation the dialogue can be in: one of the four steps is
    current, and the value of every step before it is stored and is not
    empty. *)
Definition state_ok (st : EventCreationState) : Prop :=
  (step_index st < length steps)%nat /\
  forall i k, (i < step_index st)%nat -> steps !! i = Some k ->
    exists v, data st !! k = Some v /\ v <> [].

Definition states_ok (w : World) : Prop :=
  forall u st, user_states w !! u = Some st -> state_ok st.

(** No event of the store has an empty title, type, time or location. *)
Definition fields_ok (d : Db.Database) : Prop :=
  forall e, In e (Db.events d) ->
    Db.ev_title e <> [] /\ Db.ev_type e <> [] /\ Db.ev_time e <> [] /\
    Db.ev_location e <> [].

(** The answers to the callback query [id] among calls on the gateway. *)
Definition answers_to (id : str) (cs : list api_call) : list api_call :=
  List.filter
    (fun c =>
       match c with
       | answer_callback_query i _ _ => bool_decide (i = id)
       | _ => false
       end) cs.

(** A run has answered the callback query [id] exactly once. *)
Definition answered_once (id : str) {A} (o : outcome A) : Prop :=
  exists body alert,
    answers_to id (sent o) = [answer_callback_query id body alert].

(** The event id that [handle_callbacks] reads in a payload, when it
    reads one. *)
Definition payload_event_id (payload : str) : option Z :=
  if startswith (py "view:") payload
     || startswith (py "delete:") payload
  then split1 58 payload !! 1%nat ≫= int
  else if startswith (py "rsvp:") payload then
    match split 58 payload with
    | [_; id_part; _] => int id_part
    | _ => None
    end
  else None.

(** The event id an update carries in its text, when it carries one. *)
Definition update_event_id (u : update) : option Z :=
  match u with
  | start_command m =>
      match parse_start <$> text m with
      | Some (join_token event_id) => Some event_id
      | _ => None
      end
  | button_press _ c => payload_event_id (call_data c)
  | _ => None
  end.

(** A command reaches its handler with the text that holds it. *)
Definition carries_text (u : update) : Prop :=
  match u with
  | start_command m => is_Some (text m)
  | _ => True
  end.

End WithInterpreter.

Arguments world_after {_ _} _.
Arguments sent {_ _} _.
Arguments result {_ _} _.

End Bot.

(** ** A run of the program, for examples *)

(** The scenario of the specification on the ASCII-only interpreter: an
    organizer creates an event through the dialogue, a guest opens its
    invite link. *)
Module Example.
Import Db Bot.

Definition clock : str := py "2024-05-01T18:00:00".
Definition organizer : Z := 100.
Definition guest : Z := 200.

(** A text message of [user] in their private chat with the bot. *)
Definition says (user : Z) (t : str) : @Message ascii_only :=
  {| message_id := 1; chat_id := user; chat_type := py "private";
     from_user_id := user; content_type := py "text"; text := Some t;
     location := None |}.

Definition dialogue : list (@update ascii_only) :=
  [ new_command (says organizer (py "/new"));
    plain_message (says organizer (py "Board games"));
    plain_message (says organizer (py "Alex's place"));
    plain_message (says organizer (py "game night"));
    plain_message (says organizer []) ].

Definition run (updates : list (@update ascii_only))
    (w : World) : World :=
  fold_left (fun w u => step None clock u w) updates w.

(** The world after the dialogue, and after the guest has joined. *)
Definition created : World := run dialogue (start Db.empty).

Definition join_message : @Message ascii_only :=
  says guest (py "/start join_1").

Definition joined : World :=
  step None clock (start_command join_message) created.

Definition board_games : event_row :=
  {| ev_id := 1; ev_user_id := organizer; ev_title := py "Board games";
     ev_type := py "game night"; ev_time := py "Tomorrow 19:00";
     ev_location := py "Alex's place"; ev_created_at := clock |}.

Definition guest_maybe : rsvp_row :=
  {| rs_event_id := 1; rs_user_id := guest; rs_status := py "maybe";
     rs_updated_at := clock |}.

(** The same two steps on the store alone. *)
Definition store_created : Database :=
  snd (create_event clock organizer (py "Board games") (py "game night")
         (py "Tomorrow 19:00") (py "Alex's place") Db.empty).

Definition store_joined : Database :=
  after_upsert clock 1 guest (py "maybe") store_created.


(** A button press with a payload. *)
Definition press (user : Z) (payload : str) : @CallbackQuery ascii_only :=
  {| call_id := py "q1"; call_from_user_id := user; call_data := payload;
     call_message := says user [] |}.

End Example.

(** * Proofs *)

(** ** Facts about the store *)

Module DbFacts.
Import Db.

Lemma get_event_In i d e :
  get_event i d = Some e -> In e (events d) /\ ev_id e = i.
Proof.
  unfold get_event. intros Hf. apply find_some in Hf as [Hin He].
  split; [done | by apply Z.eqb_eq].
Qed.

Lemma get_event_is_Some i d :
  is_Some (get_event i d) <-> exists e, In e (events d) /\ ev_id e = i.
Proof.
  split.
  - intros [e He]. exists e. by apply get_event_In.
  - intros (e & Hin & <-). unfold get_event.
    destruct (List.find _ _) eqn:Hf; [by eexists |].
    apply (find_none _ _ Hf) in Hin. by rewrite Z.eqb_refl in Hin.
Qed.

Lemma existsb_event i d :
  existsb (fun e => ev_id e =? i) (events d) = true
  <-> is_Some (get_event i d).
Proof.
  rewrite get_event_is_Some, existsb_exists.
  split; intros (e & Hin & He); exists e; split; try done; by apply Z.eqb_eq.
Qed.

Lemma find_unique {A} (f : A -> Z) (l : list A) (x : A) :
  NoDup (List.map f l) -> In x l ->
  List.find (fun y => f y =? f x) l = Some x.
Proof.
  induction l as [|y l IH]; simpl; [done |].
  intros Hnd [-> | Hin].
  - by rewrite Z.eqb_refl.
  - apply NoDup_cons in Hnd as [Hy Hnd].
    destruct (f y =? f x) eqn:E; [| by apply IH].
    apply Z.eqb_eq in E. exfalso. apply Hy. rewrite E.
    apply list_elem_of_In, in_map, Hin.
Qed.

Lemma get_event_unique d e :
  NoDup (List.map ev_id (events d)) -> In e (events d) ->
  get_event (ev_id e) d = Some e.
Proof. apply find_unique. Qed.

Lemma get_rsvp_In e u d r :
  get_rsvp e u d = Some r ->
  In r (rsvp d) /\ rs_event_id r = e /\ rs_user_id r = u.
Proof.
  unfold get_rsvp, same_key. intros Hf. apply find_some in Hf as [Hin He].
  apply andb_true_iff in He as [H1 H2].
  by apply Z.eqb_eq in H1, H2.
Qed.

Lemma get_rsvp_None e u d :
  get_rsvp e u d = None <-> existsb (same_key e u) (rsvp d) = false.
Proof.
  unfold get_rsvp. split.
  - intros Hf. apply not_true_is_false. intros Hex.
    apply existsb_exists in Hex as (r & Hin & Hr).
    apply (find_none _ _ Hf) in Hin. congruence.
  - intros Hex. destruct (List.find _ _) eqn:Hf; [| done].
    apply find_some in Hf as [Hin Hr].
    assert (existsb (same_key e u) (rsvp d) = true); [| congruence].
    apply existsb_exists. eauto.
Qed.

Lemma NoDup_map_filter {A B} (f : A -> B) (p : A -> bool) (l : list A) :
  NoDup (List.map f l) -> NoDup (List.map f (List.filter p l)).
Proof.
  induction l as [|x l IH]; simpl; [done |].
  intros Hnd. apply NoDup_cons in Hnd as [Hx Hnd].
  destruct (p x); simpl; [| by apply IH].
  apply NoDup_cons; split; [| by apply IH].
  intros Hin. apply Hx.
  apply list_elem_of_In, in_map_iff in Hin as (y & Hy & Hin).
  apply list_elem_of_In, in_map_iff. exists y. split; [done |].
  by apply filter_In in Hin as [Hin _].
Qed.

Lemma schema_ok_empty : schema_ok empty.
Proof.
  split; simpl; try done; apply NoDup_nil_2.
Qed.

Lemma schema_ok_create now u t ty ti l d :
  schema_ok d -> schema_ok (snd (create_event now u t ty ti l d)).
Proof.
  intros [Hpk Hseq Hkey Hfk]. split; simpl.
  - rewrite map_app. simpl. apply NoDup_app. split; [done |]. split.
    + intros x Hx Hx'. apply list_elem_of_In, in_map_iff in Hx as (e & <- & Hin).
      apply Hseq in Hin. apply list_elem_of_In in Hx'. simpl in Hx'.
      destruct Hx' as [Hx' | []]. lia.
    + apply NoDup_singleton.
  - intros e Hin. apply in_app_iff in Hin as [Hin | [<- | []]]; simpl.
    + apply Hseq in Hin. lia.
    + lia.
  - done.
  - intros r Hin. apply Hfk in Hin.
    apply get_event_is_Some in Hin as (e & Hin & He).
    apply get_event_is_Some. exists e. split; [| done].
    simpl. apply in_app_iff. by left.
Qed.

Lemma schema_ok_delete i u d :
  schema_ok d -> schema_ok (snd (delete_event i u d)).
Proof.
  intros [Hpk Hseq Hkey Hfk]. split; simpl.
  - by apply NoDup_map_filter.
  - intros e Hin. apply filter_In in Hin as [Hin _]. by apply Hseq.
  - by apply NoDup_map_filter.
  - intros r Hin. apply filter_In in Hin as [Hin Hkeep].
    apply negb_true_iff in Hkeep.
    apply Hfk, get_event_is_Some in Hin as (e & Hin & He).
    apply get_event_is_Some. exists e. split; [| done]. simpl.
    apply filter_In. split; [done |].
    apply negb_true_iff, not_true_is_false. intros Hhit.
    assert (existsb (fun e0 => ev_id e0 =? rs_event_id r)
              (List.filter (fun e0 => (ev_id e0 =? i) && (ev_user_id e0 =? u))
                 (events d)) = true); [| congruence].
    apply existsb_exists. exists e. split; [| by apply Z.eqb_eq].
    by apply filter_In.
Qed.

Lemma schema_ok_upsert now e u s d d' :
  schema_ok d -> upsert_rsvp now e u s d = Some d' -> schema_ok d'.
Proof.
  intros [Hpk Hseq Hkey Hfk]. unfold upsert_rsvp.
  destruct (existsb (same_key e u) (rsvp d)) eqn:Hex.
  - intros [= <-]. split; simpl; try done.
    + rewrite map_map.
      erewrite map_ext; [exact Hkey |].
      intros r. simpl. by destruct (same_key e u r).
    + intros r Hin. apply in_map_iff in Hin as (r0 & <- & Hin).
      apply Hfk in Hin. by destruct (same_key e u r0).
  - destruct (existsb (fun e0 => ev_id e0 =? e) (events d)) eqn:Hev; [| done].
    intros [= <-]. split; simpl; try done.
    + rewrite map_app. simpl. apply NoDup_app. split; [done |]. split.
      * intros k Hk Hk'. apply list_elem_of_In, in_map_iff in Hk as (r & <- & Hin).
        apply list_elem_of_In in Hk'. destruct Hk' as [[= H1 H2] | []].
        assert (existsb (same_key e u) (rsvp d) = true); [| congruence].
        apply existsb_exists. exists r. split; [done |]. unfold same_key.
        rewrite <- H1, <- H2, !Z.eqb_refl. done.
      * apply NoDup_singleton.
    + intros r Hin. apply in_app_iff in Hin as [Hin | [<- | []]].
      * by apply Hfk.
      * simpl. by apply existsb_event in Hev.
Qed.

Lemma reachable_schema_ok d : reachable d -> schema_ok d.
Proof.
  induction 1;
    eauto using schema_ok_empty, schema_ok_create, schema_ok_delete,
      schema_ok_upsert.
Qed.

Lemma filter_all {A} (p : A -> bool) (l : list A) :
  (forall x, In x l -> p x = true) -> List.filter p l = l.
Proof.
  induction l as [|x l IH]; simpl; [done |].
  intros Hall. rewrite (Hall x) by (by left).
  f_equal. apply IH. intros y Hy. apply Hall. by right.
Qed.

Lemma filter_none {A} (p : A -> bool) (l : list A) :
  (forall x, In x l -> p x = false) -> List.filter p l = [].
Proof.
  induction l as [|x l IH]; simpl; [done |].
  intros Hall. rewrite (Hall x) by (by left).
  apply IH. intros y Hy. apply Hall. by right.
Qed.

Lemma same_key_eq e u r :
  same_key e u r = true <-> rs_event_id r = e /\ rs_user_id r = u.
Proof.
  unfold same_key. rewrite andb_true_iff, !Z.eqb_eq. done.
Qed.

(** The row [upsert_rsvp] leaves under its key. *)
Lemma rows_of_key_upsert now e u s d d' :
  schema_ok d -> upsert_rsvp now e u s d = Some d' ->
  rows_of_key e u d' =
    [{| rs_event_id := e; rs_user_id := u; rs_status := s;
        rs_updated_at := now |}].
Proof.
  intros [_ _ Hkey _]. unfold upsert_rsvp, rows_of_key.
  destruct (existsb (same_key e u) (rsvp d)) eqn:Hex.
  - intros [= <-]. simpl. clear -Hkey Hex.
    induction (rsvp d) as [|r l IH]; simpl in *; [done |].
    apply NoDup_cons in Hkey as [Hr Hkey].
    destruct (same_key e u r) eqn:Hk; simpl.
    + apply same_key_eq in Hk as [<- <-].
      unfold same_key at 1. simpl. rewrite !Z.eqb_refl. simpl.
      f_equal. apply filter_none.
      intros x Hx. apply in_map_iff in Hx as (r0 & <- & Hin).
      apply not_true_is_false. intros Hk0. apply Hr.
      assert (same_key (rs_event_id r) (rs_user_id r) r0 = true) as Hk1.
      { destruct (same_key _ _ r0) eqn:E; [done |]. by rewrite E in Hk0. }
      apply same_key_eq in Hk1 as [H1 H2].
      apply list_elem_of_In, in_map_iff. exists r0. split; [| done].
      by rewrite H1, H2.
    + rewrite Hk. by apply IH.
  - destruct (existsb (fun e0 => ev_id e0 =? e) (events d)); [| done].
    intros [= <-]. simpl. rewrite List.filter_app. simpl.
    unfold same_key at 2. simpl. rewrite !Z.eqb_refl. simpl.
    rewrite filter_none; [done |].
    intros x Hx. apply not_true_is_false. intros Hk.
    assert (existsb (same_key e u) (rsvp d) = true); [| congruence].
    apply existsb_exists. eauto.
Qed.

Lemma upsert_is_Some now e u s d :
  is_Some (get_event e d) -> is_Some (upsert_rsvp now e u s d).
Proof.
  intros Hev. apply existsb_event in Hev. unfold upsert_rsvp.
  rewrite Hev. destruct (existsb _ (rsvp d)); by eexists.
Qed.

(** With the foreign key in force, a write that returns names an event
    that exists. *)
Lemma upsert_needs_event now e u s d :
  schema_ok d ->
  is_Some (upsert_rsvp now e u s d) -> is_Some (get_event e d).
Proof.
  intros [_ _ _ Hfk]. unfold upsert_rsvp.
  destruct (existsb (same_key e u) (rsvp d)) eqn:Hrow.
  - intros _. apply existsb_exists in Hrow as (r & Hin & Hk).
    apply same_key_eq in Hk as [<- _]. by apply Hfk.
  - destruct (existsb _ (events d)) eqn:Hev; [| by intros [? [=]]].
    intros _. by apply existsb_event.
Qed.

Lemma upsert_events now e u s d d' :
  upsert_rsvp now e u s d = Some d' ->
  events d' = events d /\ events_seq d' = events_seq d.
Proof.
  unfold upsert_rsvp.
  destruct (existsb _ (rsvp d)); [by intros [= <-] |].
  destruct (existsb _ (events d)); [by intros [= <-] | done].
Qed.

Lemma upsert_get_event now e u s d d' i :
  upsert_rsvp now e u s d = Some d' -> get_event i d' = get_event i d.
Proof.
  intros Hup. apply upsert_events in Hup as [Hev _].
  unfold get_event. by rewrite Hev.
Qed.

(** With a unique primary key, the DELETE of an event by its organizer
    hits that row and no other. *)
Lemma delete_hits_one d i e :
  schema_ok d -> get_event i d = Some e ->
  List.filter (fun e0 => (ev_id e0 =? i) && (ev_user_id e0 =? ev_user_id e))
    (events d) = [e].
Proof.
  intros [Hpk _ _ _] Hev.
  destruct (get_event_In _ _ _ Hev) as [Hin Hid]. clear Hev.
  induction (events d) as [|x l IH]; simpl in *; [done |].
  apply NoDup_cons in Hpk as [Hx Hpk].
  destruct Hin as [-> | Hin].
  - rewrite Hid, !Z.eqb_refl. simpl. f_equal.
    apply filter_none. intros y Hy. apply not_true_is_false.
    intros Hh. apply andb_true_iff in Hh as [Hh _]. apply Z.eqb_eq in Hh.
    apply Hx. rewrite Hid, <- Hh. apply list_elem_of_In, in_map, Hy.
  - destruct (ev_id x =? i) eqn:E; simpl.
    + apply Z.eqb_eq in E. exfalso. apply Hx. rewrite E, <- Hid.
      apply list_elem_of_In, in_map, Hin.
    + by apply IH.
Qed.

(** With a unique primary key, the DELETE of an event by anyone else hits
    nothing. *)
Lemma delete_hits_none d i e u :
  schema_ok d -> get_event i d = Some e -> u <> ev_user_id e ->
  forall x, In x (events d) ->
    (ev_id x =? i) && (ev_user_id x =? u) = false.
Proof.
  intros [Hpk _ _ _] Hev Hu x Hx. apply not_true_is_false.
  intros Hh. apply andb_true_iff in Hh as [H1 H2].
  apply Z.eqb_eq in H1, H2.
  pose proof (get_event_unique d x Hpk Hx) as H0.
  rewrite H1 in H0. congruence.
Qed.

End DbFacts.

(** ** Facts about the string operations *)

Module StrFacts.

Local Open Scope N_scope.

Lemma ascii_isdigit_bounds c : ascii_isdigit c = true <-> 48 <= c <= 57.
Proof.
  unfold ascii_isdigit. rewrite andb_true_iff, !N.leb_le. done.
Qed.

Lemma digit_not_c_space c : ascii_isdigit c = true -> c_isspace c = false.
Proof.
  intros Hc%ascii_isdigit_bounds. unfold c_isspace.
  apply orb_false_iff. split.
  - apply N.eqb_neq. lia.
  - apply andb_false_iff. right. apply N.leb_gt. lia.
Qed.

Lemma digit_not_space c : ascii_isdigit c = true -> isspace c = false.
Proof.
  intros Hc%ascii_isdigit_bounds. unfold isspace.
  repeat (apply orb_false_iff; split);
    try (apply N.eqb_neq; lia);
    apply andb_false_iff; (left; apply N.leb_gt; lia)
                          || (right; apply N.leb_gt; lia).
Qed.

Lemma digit_neqb c k :
  ascii_isdigit c = true -> (k < 48 \/ 57 < k) -> (c =? k) = false.
Proof.
  intros Hc%ascii_isdigit_bounds Hk. apply N.eqb_neq. lia.
Qed.

Lemma digit_ascii c : ascii_isdigit c = true -> (c <? 127) = true.
Proof. intros Hc%ascii_isdigit_bounds. apply N.ltb_lt. lia. Qed.

(** The characters of a decimal numeral are ASCII digits. *)
Lemma uint_chars_digits d : forallb ascii_isdigit (uint_chars d) = true.
Proof. induction d; simpl; done. Qed.

Lemma uint_chars_nonnil d : d <> Decimal.Nil -> uint_chars d <> [].
Proof. by destruct d. Qed.

(** On a run of digits the scanner takes everything. *)
Lemma scan_digits_all body :
  forallb ascii_isdigit body = true -> scan_digits body = (body, []).
Proof.
  induction body as [|c r IH]; simpl; [done |].
  intros [Hc Hr]%andb_true_iff.
  unfold is_digit_or_underscore. rewrite Hc. simpl. by rewrite IH.
Qed.

Lemma underscores_ok_digits body :
  forallb ascii_isdigit body = true -> underscores_ok false body = true.
Proof.
  induction body as [|c r IH]; simpl; [done |].
  intros [Hc Hr]%andb_true_iff.
  rewrite (digit_neqb c 95) by (done || lia). by apply IH.
Qed.

Lemma long_digits_digits body :
  body <> [] -> forallb ascii_isdigit body = true ->
  long_digits body = Some (digits_value 0 body).
Proof.
  intros Hne Hall. unfold long_digits.
  rewrite (scan_digits_all _ Hall), (underscores_ok_digits _ Hall).
  destruct body as [|c r]; [done |].
  simpl in Hall. apply andb_true_iff in Hall as [Hc _].
  rewrite (digit_neqb c 95) by (done || lia). done.
Qed.

Lemma to_ascii_decimal_digits `{Interpreter} body :
  forallb ascii_isdigit body = true -> to_ascii_decimal body = body.
Proof.
  induction body as [|c r IH]; simpl; [done |].
  intros [Hc Hr]%andb_true_iff. rewrite (digit_ascii c Hc).
  by rewrite IH.
Qed.

(** The value read from the characters of a numeral is the numeral's. *)
Lemma digits_value_acc d p :
  digits_value (Z.pos p) (uint_chars d) = Z.pos (Pos.of_uint_acc d p).
Proof.
  revert p. induction d; intros p; simpl; try done;
    rewrite <- IHd; f_equal; lia.
Qed.

Lemma digits_value_uint d :
  digits_value 0 (uint_chars d) = Z.of_N (Pos.of_uint d).
Proof.
  induction d; simpl; try done; apply digits_value_acc.
Qed.

(** [int(str(n)) == n] *)
Lemma int_str_of_int `{Interpreter} (n : Z) : int (str_of_int n) = Some n.
Proof.
  unfold int, str_of_int.
  assert (forall d, d <> Decimal.Nil ->
            long_from_string (uint_chars d) = Some (Z.of_uint d)) as Hpos.
  { intros d Hd. pose proof (uint_chars_digits d) as Hall.
    pose proof (uint_chars_nonnil d Hd) as Hne.
    unfold long_from_string.
    destruct (uint_chars d) as [|c r] eqn:E; [done |].
    simpl in Hall. apply andb_true_iff in Hall as [Hc Hr].
    simpl. rewrite (digit_not_c_space c Hc).
    rewrite (digit_neqb c 43), (digit_neqb c 45) by (done || lia).
    rewrite long_digits_digits; [| done | by simpl; rewrite Hc].
    by rewrite <- E, digits_value_uint. }
  pose proof (DecimalZ.of_to n) as Hn.
  destruct (Z.to_int n) as [d|d] eqn:E.
  - rewrite to_ascii_decimal_digits by apply uint_chars_digits.
    rewrite Hpos; [by f_equal |].
    destruct n; simpl in E; inversion E; try done.
    apply DecimalPos.Unsigned.to_uint_nonnil.
  - simpl. rewrite to_ascii_decimal_digits by apply uint_chars_digits.
    unfold long_from_string. simpl.
    assert (d <> Decimal.Nil) as Hd.
    { destruct n; simpl in E; inversion E. apply DecimalPos.Unsigned.to_uint_nonnil. }
    rewrite long_digits_digits;
      [| by apply uint_chars_nonnil | apply uint_chars_digits].
    simpl. rewrite digits_value_uint. by f_equal.
Qed.

Lemma str_of_int_no_space n c :
  In c (str_of_int n) -> isspace c = false.
Proof.
  unfold str_of_int.
  assert (forall d, In c (uint_chars d) -> isspace c = false) as Hd.
  { intros d Hin. apply digit_not_space.
    pose proof (uint_chars_digits d) as Hall.
    rewrite forallb_forall in Hall. by apply Hall. }
  destruct (Z.to_int n); [apply Hd |].
  intros [<- | Hin]; [done | by eapply Hd].
Qed.

Lemma str_of_int_nonempty n : str_of_int n <> [].
Proof.
  unfold str_of_int. destruct n; simpl; try done.
  apply uint_chars_nonnil, DecimalPos.Unsigned.to_uint_nonnil.
Qed.

(** A word without whitespace is read in one piece by [split]. *)
Lemma split_ws_from_word cur w :
  (forall c, In c w -> isspace c = false) ->
  split_ws_from cur w =
    match rev w ++ cur with [] => [] | p => [rev p] end.
Proof.
  revert cur. induction w as [|c r IH]; intros cur Hw; simpl;
    [by destruct cur |].
  rewrite (Hw c) by (by left).
  rewrite IH by (intros; apply Hw; by right).
  by rewrite <- app_assoc.
Qed.

Lemma startswith_app p s : startswith p (p ++ s) = true.
Proof. induction p; simpl; [done |]. by rewrite N.eqb_refl. Qed.

Lemma startswith_inv p s :
  startswith p s = true -> exists r, s = p ++ r.
Proof.
  revert s. induction p as [|a p IH]; intros s; simpl.
  - by exists s.
  - destruct s as [|b s]; [done |].
    intros [Hab Hp]%andb_true_iff. apply N.eqb_eq in Hab as ->.
    destruct (IH s Hp) as [r ->]. by exists r.
Qed.

End StrFacts.

(** ** Facts about the handlers *)

Module BotFacts.
Import Db DbFacts StrFacts Bot.

(** Unfold the plumbing of a computation, leaving the program's own
    functions in place. *)
Ltac run :=
  cbv beta iota zeta delta
    [bind read write call ret raise item set_db set_user_states
     set_username reset_state];
  cbn [world_after sent result db user_states BOT_USERNAME].

Ltac run_in H :=
  cbv beta iota zeta delta
    [bind read write call ret raise item set_db set_user_states
     set_username reset_state] in H;
  cbn [world_after sent result db user_states BOT_USERNAME] in H.

Section Laws.
Context `{Interpreter}.

(** *** The laws the handlers are run with *)

Lemma bind_ret {A B} (a : A) (k : A -> M B) w : bind (ret a) k w = k a w.
Proof. unfold bind, ret. simpl. by destruct (k a w). Qed.

Lemma bind_read {A B} (f : World -> A) (k : A -> M B) w :
  bind (read f) k w = k (f w) w.
Proof. unfold bind, read. simpl. by destruct (k (f w) w). Qed.

Lemma bind_write {B} (f : World -> World) (k : unit -> M B) w :
  bind (write f) k w = k tt (f w).
Proof. unfold bind, write. simpl. by destruct (k tt (f w)). Qed.

Lemma bind_call {B} (c : api_call) (k : unit -> M B) w :
  bind (call c) k w = after_calls [c] (k tt w).
Proof. done. Qed.

Lemma bind_raise {A B} (e : exn) (k : A -> M B) w :
  bind (raise e) k w = raise e w.
Proof. done. Qed.

Lemma bind_returns {A B} (m : M A) (k : A -> M B) w w' cs a :
  m w = {| world_after := w'; sent := cs; result := inr a |} ->
  bind m k w = after_calls cs (k a w').
Proof. intros E. unfold bind. by rewrite E. Qed.

Lemma bind_assoc {A B C} (m : M A) (k : A -> M B) (k' : B -> M C) w :
  bind (bind m k) k' w = bind m (fun a => bind (k a) k') w.
Proof.
  unfold bind. destruct (m w) as [w1 s1 [e|a]]; simpl; [done |].
  destruct (k a w1) as [w2 s2 [e|b]]; simpl; [done |].
  by rewrite app_assoc.
Qed.

End Laws.

(** Run a computation through its reads, writes and calls. *)
Ltac mrun :=
  repeat first
    [ rewrite bind_assoc
    | rewrite bind_read | rewrite bind_ret | rewrite bind_write
    | rewrite bind_call | rewrite bind_raise
    | progress cbv beta iota zeta delta [item]
    | progress cbn [negb] ].

Ltac mrun_in H :=
  repeat first
    [ rewrite bind_assoc in H
    | rewrite bind_read in H | rewrite bind_ret in H
    | rewrite bind_write in H
    | rewrite bind_call in H | rewrite bind_raise in H
    | progress cbv beta iota zeta delta [item] in H
    | progress cbn [negb] in H ].

(** Bring a finished run to one record. *)
Ltac mdone :=
  cbv beta iota delta [call ret raise read write after_calls];
  cbn [world_after sent result app].

Section WithInterpreter.
Context `{Interpreter}.
Variable me_username : option (list N).

(** *** Computations that only read and render *)

Lemma quiet_ret {A} (a : A) : quiet (ret a).
Proof. intros w. by exists a, w. Qed.

Lemma quiet_bind {A B} (m : M A) (k : A -> M B) :
  quiet m -> (forall a, quiet (k a)) -> quiet (bind m k).
Proof.
  intros Hm Hk w. destruct (Hm w) as (a & w1 & Em & Hd1 & Hu1).
  destruct (Hk a w1) as (b & w2 & Ek & Hd2 & Hu2).
  exists b, w2. unfold bind. rewrite Em. simpl. rewrite Ek. simpl.
  split; [done |]. split; congruence.
Qed.

Lemma quiet_ensure_bot_username : quiet (ensure_bot_username me_username).
Proof.
  intros w. unfold ensure_bot_username. run.
  destruct w as [d us [[|c u]|]]; simpl; eauto.
Qed.

Lemma quiet_get_invite_link i : quiet (get_invite_link me_username i).
Proof.
  apply quiet_bind; [apply quiet_ensure_bot_username |].
  intros. apply quiet_ret.
Qed.

Lemma quiet_build_event_text e us c inv ss :
  quiet (build_event_text me_username e us c inv ss).
Proof.
  unfold build_event_text. apply quiet_bind; [| intros; apply quiet_ret].
  destruct inv; [| apply quiet_ret].
  apply quiet_bind; [apply quiet_get_invite_link | intros; apply quiet_ret].
Qed.

(** Without the invite line the text is computed from the arguments
    alone. *)
Lemma build_event_text_no_invite e us c ss w :
  exists body,
    build_event_text me_username e us (Some c) false ss w =
      {| world_after := w; sent := []; result := inr body |}.
Proof. unfold build_event_text. run. eauto. Qed.

(** *** Computations that keep a property of the database *)

Section Keeps.
Variable P : Database -> Prop.

Lemma keeps_ret {A} (a : A) : keeps P (ret a).
Proof. by intros w. Qed.

Lemma keeps_raise {A} e : keeps P (raise (A:=A) e).
Proof. by intros w. Qed.

Lemma keeps_call c : keeps P (call c).
Proof. by intros w. Qed.

Lemma keeps_read {A} (f : World -> A) : keeps P (read f).
Proof. by intros w. Qed.

Lemma keeps_item {A} e (o : option A) : keeps P (item e o).
Proof. destruct o; [apply keeps_ret | apply keeps_raise]. Qed.

Lemma keeps_bind {A B} (m : M A) (k : A -> M B) :
  keeps P m -> (forall a, keeps P (k a)) -> keeps P (bind m k).
Proof.
  intros Hm Hk w Hw. unfold bind.
  destruct (result (m w)) eqn:E; simpl; [by apply Hm |].
  apply Hk, Hm, Hw.
Qed.

(** After a read, the continuation may use what was read. *)
Lemma keeps_read_bind {A B} (f : World -> A) (k : A -> M B) :
  (forall w, P (db w) -> P (db (world_after (k (f w) w)))) ->
  keeps P (bind (read f) k).
Proof. intros Hk w Hw. run. by apply Hk. Qed.

Lemma keeps_write_states f :
  keeps P (write (fun w => set_user_states (f w) w)).
Proof. by intros w. Qed.

Lemma keeps_quiet {A} (m : M A) : quiet m -> keeps P m.
Proof.
  intros Hm w Hw. destruct (Hm w) as (a & w' & E & Hd & _).
  rewrite E. simpl. by rewrite Hd.
Qed.

Hypothesis P_create : forall now u t ty ti l d,
  P d -> P (snd (create_event now u t ty ti l d)).
Hypothesis P_delete : forall i u d, P d -> P (snd (delete_event i u d)).
Hypothesis P_upsert : forall now e u s d d',
  s ∈ [py "yes"; py "no"; py "maybe"] ->
  P d -> upsert_rsvp now e u s d = Some d' -> P d'.

Lemma keeps_db_upsert_rsvp now e u s :
  s ∈ [py "yes"; py "no"; py "maybe"] -> keeps P (db_upsert_rsvp now e u s).
Proof.
  intros Hs. unfold db_upsert_rsvp. apply keeps_read_bind. intros w Hw.
  destruct (upsert_rsvp now e u s (db w)) eqn:E; run; [| done].
  by eapply P_upsert.
Qed.

Lemma keeps_prompt_for_step chat step_ : keeps P (prompt_for_step chat step_).
Proof.
  unfold prompt_for_step.
  repeat (destruct (str_eq _ _); [apply keeps_call |]). apply keeps_ret.
Qed.

Lemma keeps_user_has_access e u : keeps P (user_has_access e u).
Proof.
  unfold user_has_access. destruct (_ =? _); [apply keeps_ret |].
  apply keeps_bind; [apply keeps_read | intros; apply keeps_ret].
Qed.

Lemma keeps_build_event_text e us c inv ss :
  keeps P (build_event_text me_username e us c inv ss).
Proof. apply keeps_quiet, quiet_build_event_text. Qed.

Lemma keeps_handle_join_event now m i :
  keeps P (handle_join_event me_username now m i).
Proof.
  unfold handle_join_event. destruct (negb _); [apply keeps_call |].
  apply keeps_bind; [apply keeps_read |]. intros [e|]; [| apply keeps_call].
  apply keeps_bind; [apply keeps_read |]. intros row.
  apply keeps_bind.
  - destruct row; [apply keeps_ret |].
    apply keeps_db_upsert_rsvp. set_solver.
  - intros _. apply keeps_bind; [apply keeps_read |]. intros c.
    apply keeps_bind; [apply keeps_build_event_text |]. intros body.
    apply keeps_call.
Qed.

Lemma keeps_finish_event_creation now u chat st :
  keeps P (finish_event_creation me_username now u chat st).
Proof.
  unfold finish_event_creation.
  do 4 (apply keeps_bind; [apply keeps_item | intros ?]).
  apply keeps_read_bind. intros w Hw.
  change (P (db (world_after
    (bind (write (set_db (snd (create_event now u a a0 a1 a2 (db w)))))
       (fun _ => bind (reset_state u) (fun _ =>
          bind (read (fun w0 => get_event (events_seq (db w) + 1) (db w0)))
            (fun event =>
          bind (read (fun w0 =>
                  get_rsvp_counts (events_seq (db w) + 1) (db w0)))
            (fun counts =>
          bind (item TypeError event) (fun event0 =>
          bind (build_event_text me_username event0 None (Some counts)
                  true true) (fun body =>
          call (send_message chat
                  (py "Event saved! Share it with friends."
                     ++ [10%N; 10%N] ++ body)
                  (Some (build_rsvp_markup
                           (events_seq (db w) + 1)))))))))) w)))).
  set (d' := snd (create_event now u a a0 a1 a2 (db w))).
  assert (P d') as Hd' by by apply P_create.
  clearbody d'.
  match goal with |- P (db (world_after (?m w))) =>
    assert (keeps (fun d => d = d' \/ P d) m) as Hk end.
  { intros w0 _. run.
    destruct (get_event _ d'); run; [| by left].
    match goal with |- context [build_event_text ?u ?e ?s ?c ?i ?ss ?w1] =>
      destruct (quiet_build_event_text e s c i ss w1)
        as (body & w2 & -> & Hd2 & _) end.
    run. destruct w2. simpl in *. by left. }
  destruct (Hk w) as [-> | ?]; [by right | done..].
Qed.

Lemma keeps_store_and_advance m st k v :
  keeps P (store_and_advance m st k v).
Proof.
  unfold store_and_advance.
  apply keeps_bind; [apply keeps_write_states |]. intros _.
  apply keeps_bind; [apply keeps_item |]. intros.
  apply keeps_prompt_for_step.
Qed.

Lemma keeps_handle_event_creation now m :
  keeps P (handle_event_creation me_username now m).
Proof.
  unfold handle_event_creation.
  apply keeps_bind; [apply keeps_read |]. intros us.
  apply keeps_bind; [apply keeps_item |]. intros st.
  apply keeps_bind; [apply keeps_item |]. intros step_.
  destruct (str_eq step_ _).
  { destruct (blank _); [apply keeps_call | apply keeps_store_and_advance]. }
  destruct (str_eq step_ _).
  { destruct (location_value m);
      [apply keeps_store_and_advance | apply keeps_call]. }
  destruct (str_eq step_ _).
  { destruct (blank _); [apply keeps_call | apply keeps_store_and_advance]. }
  destruct (str_eq step_ _); [| apply keeps_ret].
  destruct (negb _); [apply keeps_call |].
  apply keeps_bind; [apply keeps_write_states |]. intros _.
  apply keeps_finish_event_creation.
Qed.

Lemma keeps_handle_start now m : keeps P (handle_start me_username now m).
Proof.
  unfold handle_start. apply keeps_bind; [apply keeps_item |]. intros t.
  destruct (parse_start t);
    [apply keeps_call | apply keeps_call | apply keeps_handle_join_event].
Qed.

Lemma keeps_handle_new m : keeps P (handle_new m).
Proof.
  unfold handle_new. destruct (negb _); [apply keeps_call |].
  apply keeps_bind; [apply keeps_write_states |]. intros _.
  apply keeps_prompt_for_step.
Qed.

Lemma keeps_handle_cancel m : keeps P (handle_cancel m).
Proof.
  unfold handle_cancel. apply keeps_bind; [apply keeps_read |]. intros us.
  destruct (us !! _); [| apply keeps_call].
  apply keeps_bind; [| intros; apply keeps_call].
  by intros w.
Qed.

Lemma keeps_handle_view_callback c i :
  keeps P (handle_view_callback me_username c i).
Proof.
  unfold handle_view_callback.
  apply keeps_bind; [apply keeps_read |]. intros [e|]; [| apply keeps_call].
  apply keeps_bind; [apply keeps_user_has_access |]. intros acc.
  destruct (negb acc); [apply keeps_call |].
  apply keeps_bind; [apply keeps_read |]. intros counts.
  apply keeps_bind; [apply keeps_read |]. intros row.
  apply keeps_bind; [apply keeps_build_event_text |]. intros body.
  apply keeps_bind; intros; apply keeps_call.
Qed.

Lemma keeps_handle_delete_callback ok c i :
  keeps P (handle_delete_callback ok c i).
Proof.
  unfold handle_delete_callback.
  apply keeps_bind; [apply keeps_read |]. intros [e|]; [| apply keeps_call].
  destruct (negb _); [apply keeps_call |].
  apply keeps_read_bind. intros w Hw.
  pose proof (P_delete i (call_from_user_id c) (db w) Hw) as Hd.
  destruct (delete_event i (call_from_user_id c) (db w)) as [deleted d'].
  simpl in Hd. run. destruct deleted; run; [destruct ok |]; done.
Qed.

Lemma keeps_handle_rsvp_callback now ok c i s :
  keeps P (handle_rsvp_callback me_username now ok c i s).
Proof.
  unfold handle_rsvp_callback.
  destruct (bool_decide _) eqn:Hs; simpl; [| apply keeps_call].
  apply bool_decide_eq_true in Hs.
  apply keeps_bind; [apply keeps_read |]. intros [e|]; [| apply keeps_call].
  apply keeps_bind; [apply keeps_user_has_access |]. intros acc.
  destruct (negb acc); [apply keeps_call |].
  apply keeps_bind; [by apply keeps_db_upsert_rsvp |]. intros _.
  apply keeps_bind; [apply keeps_read |]. intros counts.
  apply keeps_bind; [apply keeps_build_event_text |]. intros body.
  apply keeps_bind; [destruct ok; apply keeps_call |]. intros _.
  apply keeps_call.
Qed.

Lemma keeps_handle_callbacks now ok c :
  keeps P (handle_callbacks me_username now ok c).
Proof.
  unfold handle_callbacks.
  destruct (startswith _ _).
  { apply keeps_bind; [apply keeps_item |]. intros part.
    destruct (int part);
      [apply keeps_handle_view_callback | apply keeps_call]. }
  destruct (startswith _ _).
  { apply keeps_bind; [apply keeps_item |]. intros part.
    destruct (int part);
      [apply keeps_handle_delete_callback | apply keeps_call]. }
  destruct (startswith _ _); [| apply keeps_call].
  destruct (split 58 _) as [|? [|part [|s [|]]]]; try apply keeps_call.
  destruct (int part);
    [apply keeps_handle_rsvp_callback | apply keeps_call].
Qed.

Lemma keeps_handle now u : keeps P (handle me_username now u).
Proof.
  destruct u; simpl.
  - apply keeps_handle_start.
  - by intros w.
  - apply keeps_handle_new.
  - apply keeps_handle_cancel.
  - apply keeps_bind; [apply keeps_read |]. intros us.
    destruct (_ && _); [apply keeps_handle_event_creation | apply keeps_ret].
  - apply keeps_handle_callbacks.
Qed.

(** A property of the fresh database that every method of the store
    keeps holds in every world of the program. *)
Lemma reachable_keeps w :
  P Db.empty -> Bot.reachable me_username w -> P (db w).
Proof.
  intros H0. induction 1; simpl; [done | | done].
  by apply keeps_handle.
Qed.

End Keeps.

End WithInterpreter.
End BotFacts.

(** ** Facts about the RSVP counts *)

Module CountFacts.
Import Db DbFacts.

Lemma filter_andb {A} (p q : A -> bool) (l : list A) :
  List.filter (fun x => p x && q x) l = List.filter q (List.filter p l).
Proof.
  induction l as [|x l IH]; simpl; [done |].
  destruct (p x); simpl; [| done]. destruct (q x); by rewrite IH.
Qed.

(** The rows counted for a status are those of the event's rows that
    hold it. *)
Lemma status_count_rows e st d :
  status_count e st d =
    Z.of_nat (length (List.filter (fun r => bool_decide (rs_status r = st))
                        (list_event_participants e d))).
Proof. unfold status_count. by rewrite filter_andb. Qed.

Lemma statuses_ok_create now u t ty ti l d :
  statuses_ok d -> statuses_ok (snd (create_event now u t ty ti l d)).
Proof. done. Qed.

Lemma statuses_ok_delete i u d :
  statuses_ok d -> statuses_ok (snd (delete_event i u d)).
Proof.
  intros Hd r Hin. simpl in Hin. apply filter_In in Hin as [Hin _].
  by apply Hd.
Qed.

Lemma statuses_ok_upsert now e u s d d' :
  s ∈ [py "yes"; py "no"; py "maybe"] ->
  statuses_ok d -> upsert_rsvp now e u s d = Some d' -> statuses_ok d'.
Proof.
  intros Hs Hd. unfold upsert_rsvp.
  destruct (existsb (same_key e u) (rsvp d)).
  - intros [= <-] r Hin. simpl in Hin.
    apply in_map_iff in Hin as (r0 & <- & Hin).
    destruct (same_key e u r0); [done | by apply Hd].
  - destruct (existsb _ (events d)); [| done].
    intros [= <-] r Hin. simpl in Hin.
    apply in_app_iff in Hin as [Hin | [<- | []]]; [by apply Hd | done].
Qed.

Lemma bump_keys st gs k :
  In k (List.map fst (bump st gs)) <-> k = st \/ In k (List.map fst gs).
Proof.
  induction gs as [|[k0 n] gs IH]; simpl; [intuition congruence |].
  destruct (decide (k0 = st)) as [-> | Hne]; simpl; [intuition congruence |].
  rewrite IH. tauto.
Qed.

Lemma bump_NoDup st gs :
  NoDup (List.map fst gs) -> NoDup (List.map fst (bump st gs)).
Proof.
  induction gs as [|[k0 n] gs IH]; simpl; [intros; apply NoDup_singleton |].
  intros [Hk Hnd]%NoDup_cons.
  destruct (decide (k0 = st)) as [-> | Hne]; simpl.
  - by apply NoDup_cons.
  - apply NoDup_cons. split; [| by apply IH].
    rewrite list_elem_of_In, bump_keys. rewrite list_elem_of_In in Hk.
    intuition congruence.
Qed.

Lemma bump_total st gs k :
  total_of k (bump st gs) =
    total_of k gs + (if bool_decide (st = k) then 1 else 0).
Proof.
  unfold total_of.
  induction gs as [|[k0 n] gs IH]; simpl.
  - by destruct (bool_decide (st = k)).
  - destruct (decide (k0 = st)) as [-> | Hne]; simpl.
    + destruct (bool_decide (st = k)); simpl; lia.
    + destruct (bool_decide (k0 = k)) eqn:E; simpl; [| done].
      apply bool_decide_eq_true in E. subst k0.
      rewrite (bool_decide_false (st = k)) by done. lia.
Qed.

Lemma group_by_status_spec rows :
  NoDup (List.map fst (group_by_status rows)) /\
  (forall k, In k (List.map fst (group_by_status rows)) ->
             In k (List.map rs_status rows)) /\
  (forall k, total_of k (group_by_status rows) =
             Z.of_nat (length (List.filter
               (fun r => bool_decide (rs_status r = k)) rows))).
Proof.
  unfold group_by_status.
  assert (forall gs,
    NoDup (List.map fst gs) ->
    NoDup (List.map fst
      (fold_left (fun groups r => bump (rs_status r) groups) rows gs)) /\
    (forall k, In k (List.map fst
        (fold_left (fun groups r => bump (rs_status r) groups) rows gs)) ->
      In k (List.map fst gs) \/ In k (List.map rs_status rows)) /\
    (forall k, total_of k
        (fold_left (fun groups r => bump (rs_status r) groups) rows gs) =
      total_of k gs + Z.of_nat (length (List.filter
               (fun r => bool_decide (rs_status r = k)) rows)))) as Hgen.
  { induction rows as [|r rows IH]; intros gs Hgs; simpl.
    - split; [done |]. split; [tauto | intros; lia].
    - destruct (IH (bump (rs_status r) gs) (bump_NoDup _ _ Hgs))
        as (H1 & H2 & H3).
      split; [done |]. split.
      + intros k Hk. apply H2 in Hk as [Hk | Hk]; [| tauto].
        apply bump_keys in Hk. intuition.
      + intros k. rewrite H3, bump_total.
        destruct (bool_decide (rs_status r = k)); simpl; lia. }
  destruct (Hgen [] (NoDup_nil_2)) as (H1 & H2 & H3).
  split; [done |]. split.
  - intros k Hk. by destruct (H2 k Hk).
  - intros k. rewrite H3. unfold total_of. simpl. lia.
Qed.

Section WithInterpreter.
Context `{Interpreter}.

Lemma lower_status s :
  s ∈ [py "yes"; py "no"; py "maybe"] -> lower s = s.
Proof.
  rewrite !elem_of_cons, elem_of_nil.
  intros [-> | [-> | [-> | []]]]; reflexivity.
Qed.

(** When no two groups share a lowered status, the dict holds each
    group's total under its status. *)
Lemma counts_lookup (gs : list (list N * Z)) (m : gmap (list N) Z) k :
  NoDup (List.map fst gs) ->
  (forall st, In st (List.map fst gs) -> lower st = st) ->
  fold_left (fun counts '(st, total) => <[lower st := total]> counts) gs m
    !! k =
  match List.find (fun g => bool_decide (fst g = k)) gs with
  | Some g => Some (snd g)
  | None => m !! k
  end.
Proof.
  revert m. induction gs as [|[st n] gs IH]; intros m Hnd Hlow; [done |].
  change (NoDup (st :: List.map fst gs)) in Hnd.
  apply NoDup_cons in Hnd as [Hst Hnd].
  cbn [fold_left List.find fst].
  rewrite IH by (done || intros; apply Hlow; by right).
  rewrite (Hlow st) by (by left).
  case_bool_decide as Hk.
  - subst st. destruct (List.find _ gs) as [g|] eqn:Hf.
    + apply find_some in Hf as [Hin Hg].
      apply bool_decide_eq_true in Hg. exfalso. apply Hst.
      rewrite <- Hg. by apply list_elem_of_In, in_map.
    + apply lookup_insert_eq.
  - destruct (List.find _ gs); [done |]. by apply lookup_insert_ne.
Qed.

(** With statuses among the three, the dict holds for each of them the
    number of rows of the event with that status. *)
Lemma get_rsvp_counts_lookup e d k :
  statuses_ok d -> k ∈ [py "yes"; py "no"; py "maybe"] ->
  get_rsvp_counts e d !! k = Some (status_count e k d).
Proof.
  intros Hd Hk. rewrite status_count_rows.
  unfold get_rsvp_counts, list_event_participants.
  set (rows := List.filter _ (rsvp d)).
  destruct (group_by_status_spec rows) as (Hnd & Hkeys & Htot).
  rewrite counts_lookup; [| done |].
  - rewrite <- Htot. unfold total_of.
    destruct (List.find _ _); simpl; [done |].
    revert Hk. rewrite !elem_of_cons, elem_of_nil.
    intros [-> | [-> | [-> | []]]]; reflexivity.
  - intros st Hst. apply lower_status.
    apply Hkeys, in_map_iff in Hst as (r & <- & Hin).
    apply Hd. unfold rows in Hin.
    by apply filter_In in Hin as [Hin _].
Qed.

End WithInterpreter.

(** Each row has one of the three statuses, so the three counts add up to
    the number of rows. *)
Lemma status_counts_sum e d :
  statuses_ok d ->
  status_count e (py "yes") d + status_count e (py "no") d
    + status_count e (py "maybe") d
  = Z.of_nat (length (list_event_participants e d)).
Proof.
  intros Hd. rewrite !status_count_rows.
  assert (forall r, In r (list_event_participants e d) ->
            rs_status r ∈ [py "yes"; py "no"; py "maybe"]) as Hrows.
  { intros r Hin. apply Hd. unfold list_event_participants in Hin.
    by apply filter_In in Hin as [Hin _]. }
  induction (list_event_participants e d) as [|r rows IH]; simpl; [done |].
  assert (rs_status r ∈ [py "yes"; py "no"; py "maybe"]) as Hr
    by (apply Hrows; by left).
  specialize (IH (fun r0 Hin => Hrows r0 (or_intror Hin))).
  revert Hr. rewrite !elem_of_cons, elem_of_nil.
  intros [-> | [-> | [-> | []]]]; simpl; lia.
Qed.

Lemma remove_dups_NoDup {A} `{EqDecision A} (l : list A) :
  NoDup l -> remove_dups l = l.
Proof.
  induction l as [|x l IH]; simpl; [done |].
  intros [Hx Hl]%NoDup_cons.
  destruct (decide_rel _ x l); [done | by rewrite IH].
Qed.

(** The responders of an event are as many as its rows: the key is
    unique. *)
Lemma responders_length e d :
  schema_ok d ->
  length (responders e d) = length (list_event_participants e d).
Proof.
  intros [_ _ Hkey _]. unfold responders.
  rewrite remove_dups_NoDup; [by rewrite length_map |].
  induction (rsvp d) as [|r rows IH]; simpl; [apply NoDup_nil_2 |].
  apply NoDup_cons in Hkey as [Hr Hkey].
  destruct (rs_event_id r =? e) eqn:E; simpl; [| by apply IH].
  apply Z.eqb_eq in E. apply NoDup_cons. split; [| by apply IH].
  intros Hin. apply Hr.
  apply list_elem_of_In, in_map_iff in Hin as (r0 & Hu & Hin).
  apply filter_In in Hin as [Hin E0]. apply Z.eqb_eq in E0.
  apply list_elem_of_In, in_map_iff. exists r0. split; [| done].
  by rewrite Hu, E0, E.
Qed.

End CountFacts.

(** ** What the handlers compute on given branches *)

Module EvalFacts.
Import Db DbFacts StrFacts CountFacts Bot BotFacts.

Lemma find_filter_head {A} (p : A -> bool) (l : list A) :
  List.find p l = head (List.filter p l).
Proof.
  induction l as [|x l IH]; simpl; [done |]. by destruct (p x).
Qed.

(** A first RSVP of a responder for an event is appended as a new row. *)
Lemma upsert_new_row now e u s d d' :
  get_rsvp e u d = None -> upsert_rsvp now e u s d = Some d' ->
  rsvp d' = rsvp d ++
    [{| rs_event_id := e; rs_user_id := u; rs_status := s;
        rs_updated_at := now |}].
Proof.
  intros Hnone%get_rsvp_None. unfold upsert_rsvp. rewrite Hnone.
  destruct (existsb _ (events d)); [| done]. by intros [= <-].
Qed.

Lemma status_count_new_row now e u s d d' k :
  get_rsvp e u d = None -> upsert_rsvp now e u s d = Some d' ->
  status_count e k d' =
    status_count e k d + (if bool_decide (s = k) then 1 else 0).
Proof.
  intros Hnone Hup. unfold status_count.
  rewrite (upsert_new_row _ _ _ _ _ _ Hnone Hup).
  rewrite !List.filter_app, length_app. simpl. rewrite Z.eqb_refl. simpl.
  destruct (bool_decide (s = k)); simpl; lia.
Qed.

Section WithInterpreter.
Context `{Interpreter}.
Variable me_username : option (list N).

Lemma str_eq_refl a : str_eq a a = true.
Proof. unfold str_eq. by apply bool_decide_eq_true. Qed.

Lemma reachable_db_inv w : Bot.reachable me_username w -> db_inv (db w).
Proof.
  apply reachable_keeps.
  - intros * [? ?]. split;
      [by apply schema_ok_create | by apply statuses_ok_create].
  - intros * [? ?]. split;
      [by apply schema_ok_delete | by apply statuses_ok_delete].
  - intros * Hs [? ?] Hup. split;
      [by eapply schema_ok_upsert | by eapply statuses_ok_upsert].
  - split; [apply schema_ok_empty | by intros r []].
Qed.

(** The database of every world of the program is one the store's
    methods produce. *)
Lemma reachable_db_reachable w :
  Bot.reachable me_username w -> Db.reachable (db w).
Proof.
  apply reachable_keeps.
  - intros. by apply reachable_create.
  - intros. by apply reachable_delete.
  - intros. by eapply reachable_upsert.
  - apply reachable_empty.
Qed.


(** The join of a responder who has no row for the event. *)
Lemma handle_join_event_new now w m i e :
  chat_type m = py "private" ->
  get_event i (db w) = Some e ->
  get_rsvp i (from_user_id m) (db w) = None ->
  exists d' body,
    upsert_rsvp now i (from_user_id m) (py "maybe") (db w) = Some d' /\
    handle_join_event me_username now m i w =
      {| world_after := set_db d' w;
         sent := [send_message (chat_id m)
                    (py "You're invited to an event for tomorrow!"
                       ++ [10%N; 10%N] ++ body)
                    (Some (build_rsvp_markup i))];
         result := inr tt |} /\
    build_event_text me_username e (Some (py "maybe"))
      (Some (get_rsvp_counts i d')) false true (set_db d' w) =
      {| world_after := set_db d' w; sent := []; result := inr body |}.
Proof.
  intros Hpriv Hev Hrow.
  destruct (upsert_is_Some now i (from_user_id m) (py "maybe") (db w))
    as [d' Hup]; [by rewrite Hev |].
  destruct (build_event_text_no_invite me_username e (Some (py "maybe"))
              (get_rsvp_counts i d') true (set_db d' w)) as [body Hb].
  exists d', body. split; [done |]. split; [| done].
  unfold handle_join_event. rewrite Hpriv, str_eq_refl. mrun.
  rewrite Hev. mrun. rewrite Hrow. unfold db_upsert_rsvp. mrun.
  rewrite Hup. mrun. rewrite (bind_returns _ _ _ _ _ _ Hb). by mdone.
Qed.



(** A delete pressed by someone who is not the organizer is refused
    before the store is asked. *)
Lemma handle_delete_callback_not_organizer ok c i w e :
  get_event i (db w) = Some e ->
  ev_user_id e <> call_from_user_id c ->
  handle_delete_callback ok c i w =
    {| world_after := w;
       sent := [answer_callback_query (call_id c)
                  (Some (py "You can only delete your own events.")) true];
       result := inr tt |}.
Proof.
  intros Hev Hne. unfold handle_delete_callback. mrun. rewrite Hev.
  apply Z.eqb_neq in Hne. by rewrite Hne.
Qed.


End WithInterpreter.
End EvalFacts.

(** ** The creation dialogue, step by step *)

Module DialogueFacts.
Import Db DbFacts StrFacts CountFacts Bot BotFacts EvalFacts.


Section WithInterpreter.
Context `{Interpreter}.
Variable me_username : option (list N).











End WithInterpreter.
End DialogueFacts.

(** ** The store: upsert, cascade and ownership *)

Section StoreClaims.
Import Db DbFacts.

(** C2, as worded (at any event id): on a fresh database, where event 1
    does not exist, both calls of [upsert_rsvp] are refused by the foreign
    key and no row is left under the key. *)
Lemma upsert_twice_unknown_event :
  upsert_rsvp (py "t1") 1 7 (py "yes") Db.empty = None /\
  ~ upsert_twice_keeps_latest (py "t1") (py "t2") 1 7 (py "yes") (py "no")
      Db.empty.
Proof.
  split; [reflexivity |].
  intros (r & Hrows & _). vm_compute in Hrows. discriminate.
Qed.

(** C2, amended: for every database the store can be in, every responder
    and statuses [s1] then [s2]: when the id names an event that exists,
    both calls of [upsert_rsvp] return, and they leave exactly one row
    under the key [(event, responder)], whose status is [s2]; when the id
    names no event, [upsert_rsvp] is refused by the foreign key ([None],
    the integrity error), the database is as it was, and it holds no row
    for the id, under any responder. *)
Theorem upsert_twice_existing_event now1 now2 e u s1 s2 d :
  Db.reachable d ->
  (is_Some (get_event e d) ->
   is_Some (upsert_rsvp now1 e u s1 d) /\
   is_Some (upsert_rsvp now2 e u s2 (after_upsert now1 e u s1 d)) /\
   upsert_twice_keeps_latest now1 now2 e u s1 s2 d) /\
  (get_event e d = None ->
   upsert_rsvp now1 e u s1 d = None /\
   after_upsert now1 e u s1 d = d /\
   forall r, In r (rsvp (after_upsert now1 e u s1 d)) ->
             rs_event_id r <> e).
Proof.
  intros Hd. apply reachable_schema_ok in Hd. split; cycle 1.
  { intros Hev.
    assert (forall r, In r (rsvp d) -> rs_event_id r <> e) as Hrows.
    { intros r Hin <-. apply (fk_holds _ Hd) in Hin as [x Hx]. congruence. }
    assert (upsert_rsvp now1 e u s1 d = None) as Hup.
    { destruct (upsert_rsvp now1 e u s1 d) as [d'|] eqn:Hup; [| done].
      assert (is_Some (get_event e d)) as [x Hx]; [| congruence].
      apply (upsert_needs_event now1 e u s1 d Hd). by eexists. }
    unfold after_upsert. rewrite Hup. by repeat split. }
  intros Hev.
  destruct (upsert_is_Some now1 e u s1 d Hev) as [d1 H1].
  assert (schema_ok d1) as Hd1 by eauto using schema_ok_upsert.
  assert (is_Some (get_event e d1)) as Hev1.
  { by rewrite (upsert_get_event _ _ _ _ _ _ _ H1). }
  destruct (upsert_is_Some now2 e u s2 d1 Hev1) as [d2 H2].
  unfold upsert_twice_keeps_latest, after_upsert. rewrite H1. simpl.
  rewrite H2. simpl. repeat split; try by eexists.
  eexists. split; [by eapply rows_of_key_upsert |]. done.
Qed.

(** C3: in every database the store can be in, every [rsvp] row references
    an existing event; deleting an event (by its organizer) returns true,
    removes the event and exactly the rows whose [event_id] is its id, so
    that [get_rsvp] finds nothing for any responder, and every row that
    remains still references an existing event. *)
Theorem delete_event_cascades d i e :
  Db.reachable d -> get_event i d = Some e ->
  let d' := snd (delete_event i (ev_user_id e) d) in
  (forall r, In r (rsvp d) -> is_Some (get_event (rs_event_id r) d)) /\
  fst (delete_event i (ev_user_id e) d) = true /\
  get_event i d' = None /\
  (forall r, In r (rsvp d') <-> In r (rsvp d) /\ rs_event_id r <> i) /\
  (forall u, get_rsvp i u d' = None) /\
  (forall r, In r (rsvp d') -> is_Some (get_event (rs_event_id r) d')).
Proof.
  intros Hd Hev d'. apply reachable_schema_ok in Hd.
  pose proof (schema_ok_delete i (ev_user_id e) d Hd) as Hd'.
  fold d' in Hd'.
  pose proof (delete_hits_one d i e Hd Hev) as Hdel.
  destruct (get_event_In _ _ _ Hev) as [Hin Hid].
  assert (forall r, In r (rsvp d') <-> In r (rsvp d) /\ rs_event_id r <> i)
    as Hrows.
  { intros r. subst d'. unfold delete_event. simpl.
    rewrite Hdel, filter_In. simpl. rewrite orb_false_r, Hid.
    rewrite negb_true_iff, Z.eqb_neq. intuition congruence. }
  split; [apply Hd |]. split; [| split; [| split; [done | split]]].
  - unfold delete_event. simpl. by rewrite Hdel.
  - destruct (get_event i d') as [e'|] eqn:He'; [| done].
    apply get_event_In in He' as [Hin' Hid'].
    subst d'. simpl in Hin'. apply filter_In in Hin' as [Hin' Hno].
    destruct Hd as [Hpk _ _ _].
    pose proof (get_event_unique d e' Hpk Hin') as H0.
    rewrite Hid' in H0. assert (e' = e) as -> by congruence.
    by rewrite Hid, !Z.eqb_refl in Hno.
  - intros u. destruct (get_rsvp i u d') as [r|] eqn:Hr; [| done].
    apply get_rsvp_In in Hr as (Hr & Hi & _). apply Hrows in Hr as [_ Hr].
    done.
  - apply Hd'.
Qed.

(** C5: for every event of the store and every requester other than its
    organizer, [delete_event] returns false and leaves the database as it
    was, and [get_event] still returns the event, unchanged. *)
Theorem delete_event_by_other_user d i e u :
  Db.reachable d -> get_event i d = Some e -> u <> ev_user_id e ->
  delete_event i u d = (false, d) /\
  get_event i (snd (delete_event i u d)) = Some e.
Proof.
  intros Hd Hev Hu. apply reachable_schema_ok in Hd.
  assert (delete_event i u d = (false, d)) as Hdel; [| by rewrite Hdel].
  pose proof (delete_hits_none d i e u Hd Hev Hu) as Hnone.
  unfold delete_event. rewrite (filter_none _ _ Hnone). simpl.
  f_equal. destruct d as [evs seq rs]. simpl in *. f_equal.
  - apply filter_all. intros x Hx. by rewrite (Hnone x Hx).
  - by apply filter_all.
Qed.

End StoreClaims.

(** ** The creation dialogue *)

Section DialogueClaims.
Import Db DbFacts StrFacts CountFacts Bot BotFacts EvalFacts DialogueFacts.
Context `{Interpreter}.
Variable me_username : option (list N).


(** The time step on a text: blank gives the default. *)
Lemma time_value_blank t :
  strip t = [] -> time_value (Some t) = DEFAULT_TIME_TEXT.
Proof. intros E. unfold time_value. destruct t; [done |]. by rewrite E. Qed.

Lemma isdigit_char_not_colon c : isdigit_char c = true -> (c =? 58)%N = false.
Proof.
  unfold isdigit_char. intros Hc. apply N.eqb_neq. intros ->.
  by vm_compute in Hc.
Qed.

(** The time step on a text of the strict pattern: [Tomorrow] and the
    text. *)
Lemma time_value_hhmm t :
  strict_hhmm (strip t) = true ->
  time_value (Some t) = py "Tomorrow " ++ strip t.
Proof.
  intros Hp. unfold time_value.
  assert (exists c r, t = c :: r) as (c & r & ->).
  { destruct t; [by vm_compute in Hp | eauto]. }
  destruct (strip (c :: r)) as [|h1 [|h2 [|k [|m1 [|m2 [|]]]]]];
    try done.
  unfold strict_hhmm in Hp.
  apply andb_true_iff in Hp as [Hp D4].
  apply andb_true_iff in Hp as [Hp D3].
  apply andb_true_iff in Hp as [Hp Hk].
  apply andb_true_iff in Hp as [D1 D2].
  apply N.eqb_eq in Hk as ->.
  cbn [length Nat.eqb andb]. rewrite bool_decide_true by done.
  unfold isdigit, replace. cbn [flat_map].
  rewrite (isdigit_char_not_colon h1), (isdigit_char_not_colon h2),
    (isdigit_char_not_colon m1), (isdigit_char_not_colon m2) by done.
  cbn [N.eqb Pos.eqb app forallb]. by rewrite D1, D2, D3, D4.
Qed.

(** The time step on any other text that fails the test of the source:
    the trimmed text. *)
Lemma time_value_verbatim t :
  strip t <> [] ->
  (length (strip t) =? 5)%nat
    && bool_decide (strip t !! 2%nat = Some 58%N)
    && isdigit (replace 58 [] (strip t)) = false ->
  time_value (Some t) = strip t.
Proof.
  intros Hne Htest. unfold time_value.
  destruct t as [|c r]; [done |].
  destruct (strip (c :: r)) eqn:E; [done |]. by rewrite Htest.
Qed.

(** C4 fails on the code at the text [1::23]: it is not blank and not of
    the pattern HH:MM, so the claim has it stored verbatim, yet the time
    step stores [Tomorrow 1::23]; the test of the source removes every
    colon before it asks for digits. *)
Theorem time_step_extra_colon :
  strip (py "1::23") = py "1::23" /\
  strict_hhmm (py "1::23") = false /\
  time_value (Some (py "1::23")) = py "Tomorrow 1::23".
Proof. repeat split; reflexivity. Qed.

End DialogueClaims.

(** ** Invite links and button payloads *)

Section LinkClaims.
Import Db DbFacts StrFacts CountFacts Bot BotFacts EvalFacts DialogueFacts.
Context `{Interpreter}.
Variable me_username : option (list N).

Lemma split_ws_deep_link s :
  (forall c, In c s -> isspace c = false) ->
  split_ws (deep_link_command (py "join_" ++ s)) =
    [py "/start"; py "join_" ++ s].
Proof.
  intros Hs. unfold split_ws, deep_link_command.
  change (split_ws_from [] (py "/start " ++ py "join_" ++ s))
    with (py "/start" :: split_ws_from (rev (py "join_")) s).
  f_equal. rewrite split_ws_from_word by done.
  destruct (rev s ++ rev (py "join_")) as [|c r] eqn:E.
  - apply app_eq_nil in E as [_ E]. by vm_compute in E.
  - rewrite <- E, rev_app_distr, !rev_involutive. done.
Qed.

Lemma invite_link_round_trip_parse (event_id : Z) :
  parse_start (deep_link_command (py "join_" ++ str_of_int event_id)) =
    join_token event_id.
Proof.
  unfold parse_start.
  rewrite split_ws_deep_link by apply str_of_int_no_space.
  change ([py "/start"; py "join_" ++ str_of_int event_id] !! 1%nat)
    with (Some (py "join_" ++ str_of_int event_id)).
  cbv beta iota. rewrite startswith_app.
  change (split1 95 (py "join_" ++ str_of_int event_id) !! 1%nat)
    with (Some (str_of_int event_id)).
  cbv beta iota. by rewrite int_str_of_int.
Qed.

(** C6: the link built for an event id ends in [?start=] and a parameter,
    and the text of the start command that carries this parameter is read
    back by [handle_start] as a join of that same id, for every integer
    id. *)
Theorem invite_link_round_trip (event_id : Z) w :
  exists username,
    result (get_invite_link me_username event_id w) =
      inr (py "https://t.me/" ++ username ++ py "?start="
             ++ py "join_" ++ str_of_int event_id) /\
    parse_start (deep_link_command (py "join_" ++ str_of_int event_id)) =
      join_token event_id.
Proof.
  destruct (quiet_ensure_bot_username me_username w)
    as (u & w' & E & _ & _).
  exists u. split.
  - unfold get_invite_link. rewrite (bind_returns _ _ _ _ _ _ E). done.
  - apply invite_link_round_trip_parse.
Qed.

(** A start command that carries the parameter of the link built for
    [event_id] is handled as a join of that event. *)
Lemma handle_start_deep_link now m event_id w :
  text m = Some (deep_link_command (py "join_" ++ str_of_int event_id)) ->
  handle_start me_username now m w =
    handle_join_event me_username now m event_id w.
Proof.
  intros Ht. unfold handle_start. rewrite Ht. mrun.
  by rewrite invite_link_round_trip_parse.
Qed.

(** C9: on a malformed payload (a view or delete payload whose id part is
    no integer, an rsvp payload that has not three parts or whose id part
    is no integer) [handle_callbacks] returns without an exception, its
    only call on the gateway is an alert that the data is invalid, and
    the world is as it was, whatever the world: the store is neither
    written nor asked. *)
Theorem malformed_payload_rejected now edit_ok c :
  malformed (call_data c) ->
  exists body,
    body ∈ [py "Invalid event id."; py "Invalid RSVP data."] /\
    forall w,
      handle_callbacks me_username now edit_ok c w =
        {| world_after := w;
           sent := [answer_callback_query (call_id c) (Some body) true];
           result := inr tt |}.
Proof.
  intros Hbad. unfold handle_callbacks. cbv zeta.
  destruct Hbad as [part Hint | part Hint
                   | p Hstart Hlen | p hd part st Hstart Hsplit Hint].
  - exists (py "Invalid event id."). split; [set_solver |]. intros w.
    change (startswith (py "view:") (py "view:" ++ part)) with true.
    cbv beta iota.
    change (split1 58 (py "view:" ++ part) !! 1%nat) with (Some part).
    mrun. by rewrite Hint.
  - exists (py "Invalid event id."). split; [set_solver |]. intros w.
    change (startswith (py "view:") (py "delete:" ++ part)) with false.
    change (startswith (py "delete:") (py "delete:" ++ part)) with true.
    cbv beta iota.
    change (split1 58 (py "delete:" ++ part) !! 1%nat) with (Some part).
    mrun. by rewrite Hint.
  - exists (py "Invalid RSVP data."). split; [set_solver |]. intros w.
    destruct (startswith_inv _ _ Hstart) as [r ->].
    change (startswith (py "view:") (py "rsvp:" ++ r)) with false.
    change (startswith (py "delete:") (py "rsvp:" ++ r)) with false.
    change (startswith (py "rsvp:") (py "rsvp:" ++ r)) with true.
    cbv beta iota.
    destruct (split 58 (py "rsvp:" ++ r)) as [|a [|b [|s [|]]]]; done.
  - exists (py "Invalid RSVP data."). split; [set_solver |]. intros w.
    destruct (startswith_inv _ _ Hstart) as [r ->].
    change (startswith (py "view:") (py "rsvp:" ++ r)) with false.
    change (startswith (py "delete:") (py "rsvp:" ++ r)) with false.
    change (startswith (py "rsvp:") (py "rsvp:" ++ r)) with true.
    cbv beta iota. rewrite Hsplit. by rewrite Hint.
Qed.

End LinkClaims.

(** ** Counts and joins *)

Section JoinClaims.
Import Db DbFacts StrFacts CountFacts Bot BotFacts EvalFacts DialogueFacts.
Context `{Interpreter}.
Variable me_username : option (list N).

(** C7: in every world of the program and for every event id, the dict
    of [get_rsvp_counts] has the keys yes, no and maybe, each with the
    number of rows of the event that hold this status (0 when there is
    none), and the three counts add up to the number of distinct
    responders of the event. *)
Theorem rsvp_counts_complete w e :
  Bot.reachable me_username w ->
  let counts := get_rsvp_counts e (db w) in
  counts !! py "yes" = Some (status_count e (py "yes") (db w)) /\
  counts !! py "no" = Some (status_count e (py "no") (db w)) /\
  counts !! py "maybe" = Some (status_count e (py "maybe") (db w)) /\
  status_count e (py "yes") (db w) + status_count e (py "no") (db w)
    + status_count e (py "maybe") (db w)
  = Z.of_nat (length (responders e (db w))).
Proof.
  intros [Hschema Hstat]%reachable_db_inv counts. subst counts.
  rewrite !get_rsvp_counts_lookup by (done || set_solver).
  repeat split; try done.
  by rewrite status_counts_sum, responders_length.
Qed.

(** C8: when, in a world of the program, a user who has no RSVP for an
    existing event opens its invite link in a private chat, the handler
    returns, the store then holds for (event, user) a row of status
    maybe, and the maybe count of the event is one more than before. *)
Theorem join_creates_maybe now w m i e :
  Bot.reachable me_username w ->
  chat_type m = py "private" ->
  get_event i (db w) = Some e ->
  get_rsvp i (from_user_id m) (db w) = None ->
  let o := handle_join_event me_username now m i w in
  result o = inr tt /\
  get_rsvp i (from_user_id m) (db (world_after o)) =
    Some {| rs_event_id := i; rs_user_id := from_user_id m;
            rs_status := py "maybe"; rs_updated_at := now |} /\
  rows_of_key i (from_user_id m) (db (world_after o)) =
    [{| rs_event_id := i; rs_user_id := from_user_id m;
        rs_status := py "maybe"; rs_updated_at := now |}] /\
  get_rsvp_counts i (db (world_after o)) !! py "maybe" =
    Some (status_count i (py "maybe") (db w) + 1).
Proof.
  intros [Hschema Hstat]%reachable_db_inv Hpriv Hev Hrow o. subst o.
  destruct (handle_join_event_new me_username now w m i e Hpriv Hev Hrow)
    as (d' & body & Hup & -> & _).
  cbn [result world_after db set_db].
  pose proof (rows_of_key_upsert _ _ _ _ _ _ Hschema Hup) as Hrows.
  split; [done |]. split; [| split; [done |]].
  - unfold get_rsvp. rewrite find_filter_head.
    unfold rows_of_key in Hrows. by rewrite Hrows.
  - rewrite get_rsvp_counts_lookup; [| | set_solver].
    + by rewrite (status_count_new_row _ _ _ _ _ _ _ Hrow Hup).
    + eapply statuses_ok_upsert; [| done | done]. set_solver.
Qed.


End JoinClaims.

(** ** The properties on the example run *)

Section Witnesses.
Import Db Bot Example.
#[local] Existing Instance ascii_only.

Lemma example_store_reachable : Db.reachable store_joined.
Proof.
  apply (reachable_upsert clock 1 guest (py "maybe") store_created);
    [| reflexivity].
  apply (reachable_create clock organizer (py "Board games")
           (py "game night") (py "Tomorrow 19:00") (py "Alex's place")
           Db.empty).
  apply reachable_empty.
Defined.

Lemma example_created_reachable : Bot.reachable None created.
Proof. repeat apply reachable_step. apply reachable_start. Defined.

Lemma example_joined_reachable : Bot.reachable None joined.
Proof. apply reachable_step, example_created_reachable. Defined.



Lemma upsert_twice_existing_event_witness :
  (is_Some (get_event 1 store_joined) ->
   is_Some (upsert_rsvp clock 1 guest (py "yes") store_joined) /\
   is_Some (upsert_rsvp clock 1 guest (py "no")
              (after_upsert clock 1 guest (py "yes") store_joined)) /\
   upsert_twice_keeps_latest clock clock 1 guest (py "yes") (py "no")
     store_joined) /\
  (get_event 1 store_joined = None ->
   upsert_rsvp clock 1 guest (py "yes") store_joined = None /\
   after_upsert clock 1 guest (py "yes") store_joined = store_joined /\
   forall r,
     In r (rsvp (after_upsert clock 1 guest (py "yes") store_joined)) ->
     rs_event_id r <> 1).
Proof.
  apply (upsert_twice_existing_event clock clock 1 guest (py "yes")
           (py "no") store_joined).
  apply example_store_reachable.
Defined.

Lemma delete_event_cascades_witness :
  let d' := snd (delete_event 1 (ev_user_id board_games) store_joined) in
  (forall r, In r (rsvp store_joined) ->
     is_Some (get_event (rs_event_id r) store_joined)) /\
  fst (delete_event 1 (ev_user_id board_games) store_joined) = true /\
  get_event 1 d' = None /\
  (forall r, In r (rsvp d') <->
     In r (rsvp store_joined) /\ rs_event_id r <> 1) /\
  (forall u, get_rsvp 1 u d' = None) /\
  (forall r, In r (rsvp d') -> is_Some (get_event (rs_event_id r) d')).
Proof.
  apply delete_event_cascades.
  - apply example_store_reachable.
  - reflexivity.
Defined.

Lemma delete_event_by_other_user_witness :
  delete_event 1 guest store_joined = (false, store_joined) /\
  get_event 1 (snd (delete_event 1 guest store_joined)) = Some board_games.
Proof.
  apply delete_event_by_other_user.
  - apply example_store_reachable.
  - reflexivity.
  - intros E. vm_compute in E. discriminate E.
Defined.

Lemma rsvp_counts_complete_witness :
  let counts := get_rsvp_counts 1 (db joined) in
  counts !! py "yes" = Some (status_count 1 (py "yes") (db joined)) /\
  counts !! py "no" = Some (status_count 1 (py "no") (db joined)) /\
  counts !! py "maybe" = Some (status_count 1 (py "maybe") (db joined)) /\
  status_count 1 (py "yes") (db joined) + status_count 1 (py "no") (db joined)
    + status_count 1 (py "maybe") (db joined)
  = Z.of_nat (length (responders 1 (db joined))).
Proof.
  apply (rsvp_counts_complete None). apply example_joined_reachable.
Defined.

Lemma join_creates_maybe_witness :
  let o := handle_join_event None clock join_message 1 created in
  result o = inr tt /\
  get_rsvp 1 guest (db (world_after o)) = Some guest_maybe /\
  rows_of_key 1 guest (db (world_after o)) = [guest_maybe] /\
  get_rsvp_counts 1 (db (world_after o)) !! py "maybe" =
    Some (status_count 1 (py "maybe") (db created) + 1).
Proof.
  apply (join_creates_maybe None clock created join_message 1 board_games).
  - apply example_created_reachable.
  - reflexivity.
  - reflexivity.
  - reflexivity.
Defined.

Lemma malformed_payload_rejected_witness :
  exists body,
    body ∈ [py "Invalid event id."; py "Invalid RSVP data."] /\
    forall w,
      handle_callbacks None clock true (press guest (py "view:abc")) w =
        {| world_after := w;
           sent := [answer_callback_query
                      (call_id (press guest (py "view:abc")))
                      (Some body) true];
           result := inr tt |}.
Proof.
  apply malformed_payload_rejected.
  apply (malformed_view (py "abc")). reflexivity.
Defined.


(** The scenarios of the specification, run. *)

Example scenario_default_time :
  get_event 1 (db created) = Some board_games.
Proof. reflexivity. Qed.

Example scenario_guest_joins :
  get_rsvp 1 guest (db joined) = Some guest_maybe /\
  get_rsvp_counts 1 (db joined) !! py "maybe" = Some 1.
Proof. split; reflexivity. Qed.

Example scenario_guest_says_no :
  let w := step None clock
             (button_press true (press guest (py "rsvp:1:no"))) joined in
  rs_status <$> get_rsvp 1 guest (db w) = Some (py "no") /\
  get_rsvp_counts 1 (db w) !! py "no" = Some 1 /\
  get_rsvp_counts 1 (db w) !! py "maybe" = Some 0 /\
  length (rsvp (db w)) = 1%nat.
Proof. repeat split; reflexivity. Qed.

(** The dialogue with the time text [1::23]: the event is stored with
    the time [Tomorrow 1::23]. *)
Example scenario_extra_colon :
  let w := step None clock (plain_message (says organizer (py "1::23")))
             (run (take 4 dialogue) (start Db.empty)) in
  ev_time <$> get_event 1 (db w) = Some (py "Tomorrow 1::23").
Proof. reflexivity. Qed.

(** Other malformed payloads, run. *)
Example scenario_malformed_payloads :
  sent (handle_callbacks None clock true (press guest (py "rsvp:1")) joined)
    = [answer_callback_query (py "q1") (Some (py "Invalid RSVP data.")) true]
  /\
  sent (handle_callbacks None clock true (press guest (py "rsvp:x:yes"))
          joined)
    = [answer_callback_query (py "q1") (Some (py "Invalid RSVP data.")) true]
  /\
  sent (handle_callbacks None clock true (press guest (py "delete:1:2"))
          joined)
    = [answer_callback_query (py "q1") (Some (py "Invalid event id.")) true].
Proof. repeat split; reflexivity. Qed.

End Witnesses.
